(** * Dual-AI orchestrator: the provider client, the agents and the
    collaboration loop of the server ([server.js]), embedded in Rocq.

    JavaScript values reaching the engine (request bodies, provider replies,
    agent fields) are modelled by [json].  A JS number is represented by its
    canonical decimal text (what [Number.prototype.toString] prints), which is
    all the modelled code ever does with a number besides truthiness. *)

From Stdlib Require Import String Ascii List ZArith Bool Lia Sorting.Sorted.
Import ListNotations.
Local Open Scope Z_scope.
Local Open Scope string_scope.
Local Open Scope list_scope.
Set Warnings "-register-all".

(** ** JavaScript values *)

Inductive json : Type :=
| JUndefined
| JNull
| JBool (b : bool)
| JNum (repr : string)
| JStr (s : string)
| JArr (items : list json)
| JObj (fields : list (string * json)).

Definition nl : string := String (ascii_of_nat 10) EmptyString.

(** Truthiness, used by [a || b]. *)
Definition truthy (v : json) : bool :=
  match v with
  | JUndefined | JNull => false
  | JBool b => b
  | JNum r => negb (String.eqb r "0" || String.eqb r "NaN")
  | JStr s => negb (String.eqb s "")
  | JArr _ | JObj _ => true
  end.

Definition js_or (a b : json) : json := if truthy a then a else b.

(** A parameter default [x = d] applies only when [x] is [undefined]. *)
Definition default_param (v d : json) : json :=
  match v with JUndefined => d | _ => v end.

(** Strict equality against a string literal ([v === 'lit']). *)
Definition is_str (v : json) (lit : string) : bool :=
  match v with JStr s => String.eqb s lit | _ => false end.

Fixpoint assoc {A} (k : string) (l : list (string * A)) : option A :=
  match l with
  | [] => None
  | (k', v) :: r => if String.eqb k k' then Some v else assoc k r
  end.

(** Property read [v.k]; [None] is the TypeError raised on [null] and
    [undefined].  Objects come from object literals or [JSON.parse] and carry
    no own keys twice. *)
Definition get_field (v : json) (k : string) : option json :=
  match v with
  | JUndefined | JNull => None
  | JObj fs => Some (match assoc k fs with Some x => x | None => JUndefined end)
  | _ => Some JUndefined
  end.

(** Index read [v[0]]. *)
Definition get_first (v : json) : option json :=
  match v with
  | JUndefined | JNull => None
  | JArr (x :: _) => Some x
  | JObj fs => Some (match assoc "0" fs with Some x => x | None => JUndefined end)
  | JStr (String c _) => Some (JStr (String c EmptyString))
  | _ => Some JUndefined
  end.

Fixpoint digits_aux (fuel n : nat) (acc : string) : string :=
  match fuel with
  | O => acc
  | S f =>
      let acc' := String (ascii_of_nat (48 + Nat.modulo n 10)) acc in
      if Nat.ltb n 10 then acc' else digits_aux f (Nat.div n 10) acc'
  end.

Definition string_of_nat (n : nat) : string := digits_aux (S n) n EmptyString.

Fixpoint index_keys {A} (i : nat) (l : list A) : list (string * A) :=
  match l with
  | [] => []
  | x :: r => (string_of_nat i, x) :: index_keys (S i) r
  end.

(** Own enumerable properties, in the order object spread visits them. *)
Definition own_props (v : json) : list (string * json) :=
  match v with
  | JObj fs => fs
  | JArr l => index_keys 0 l
  | JStr s => index_keys 0 (map (fun c => JStr (String c EmptyString)) (list_ascii_of_string s))
  | _ => []
  end.

(** Property write on an object literal: an existing key keeps its place. *)
Fixpoint obj_set (fs : list (string * json)) (k : string) (v : json) : list (string * json) :=
  match fs with
  | [] => [(k, v)]
  | (k', v') :: r => if String.eqb k k' then (k', v) :: r else (k', v') :: obj_set r k v
  end.

(** [{ ...base, ...src }]. *)
Definition obj_spread (base : list (string * json)) (src : json) : list (string * json) :=
  fold_left (fun acc kv => obj_set acc (fst kv) (snd kv)) (own_props src) base.

Fixpoint join (sep : string) (l : list string) : string :=
  match l with
  | [] => EmptyString
  | [x] => x
  | x :: r => String.append x (String.append sep (join sep r))
  end.

Fixpoint all_some {A} (l : list (option A)) : option (list A) :=
  match l with
  | [] => Some []
  | None :: _ => None
  | Some x :: r => match all_some r with Some xs => Some (x :: xs) | None => None end
  end.

(** [ToString] as used by template literals and [Array.prototype.join].
    A plain object prints [[object Object]]; an object carrying an own
    [toString] key (never callable in data from [JSON.parse]) makes
    [OrdinaryToPrimitive] fail, a TypeError ([None]). Arrays join their
    elements with commas, [null] and [undefined] elements printing empty. *)
Fixpoint js_to_string (v : json) : option string :=
  match v with
  | JUndefined => Some "undefined"
  | JNull => Some "null"
  | JBool b => Some (if b then "true" else "false")
  | JNum r => Some r
  | JStr s => Some s
  | JObj fs =>
      match assoc "toString" fs with
      | Some _ => None
      | None => Some "[object Object]"
      end
  | JArr l =>
      match all_some (map (fun x => match x with
                                    | JUndefined | JNull => Some EmptyString
                                    | _ => js_to_string x
                                    end) l) with
      | Some ss => Some (join "," ss)
      | None => None
      end
  end.

(** [arr.join(sep)]. *)
Definition js_join (sep : string) (l : list json) : option string :=
  match all_some (map (fun x => match x with
                                | JUndefined | JNull => Some EmptyString
                                | _ => js_to_string x
                                end) l) with
  | Some ss => Some (join sep ss)
  | None => None
  end.

(** [arr.slice(-n)] for [n >= 1]. *)
Definition slice_last {A} (n : nat) (l : list A) : list A :=
  skipn (length l - n) l.

(** ** Process state and the state/error monad

    Errors are JS [Error] objects; only their [message] is ever read. *)

Inductive result (A : Type) : Type :=
| Ok (a : A)
| Err (message : string).
Arguments Ok {A} a.
Arguments Err {A} message.

(** Message of the TypeErrors raised by the runtime (property read on
    [null]/[undefined], failed conversion to a primitive). *)
Definition type_error : string := "TypeError".

(** One entry of [this.rateLimits]. *)
Record rate_window := {
  requests : Z;
  resetTime : Z;
  limit : Z
}.

(** The [DualAPIClient] instance; a key is [None] when the environment
    variable is unset. *)
Record api_client := {
  openaiKey : option string;
  anthropicKey : option string;
  rl_openai : rate_window;
  rl_anthropic : rate_window
}.

(** The fields of the global [metrics] object the engine writes. *)
Record metrics := {
  openaiRequests : Z;
  anthropicRequests : Z;
  errors : Z
}.

Record agent := {
  ag_id : string;
  ag_name : json;
  ag_role : json;
  ag_provider : json;
  ag_model : json;
  ag_instructions : json;
  ag_memory : list json;
  ag_created : Z
}.

(** Everything the engine reads or writes: the client, the metrics, the
    orchestrator's [agents] Map (insertion ordered) and the clock read by
    [Date.now()].  The clock only moves while a [fetch] is awaited. *)
Record world := {
  w_client : api_client;
  w_metrics : metrics;
  w_agents : list (string * agent);
  w_clock : Z
}.

Definition M (A : Type) : Type := world -> world * result A.

Definition ret {A} (a : A) : M A := fun w => (w, Ok a).
Definition throw {A} (msg : string) : M A := fun w => (w, Err msg).
Definition bind {A B} (m : M A) (k : A -> M B) : M B :=
  fun w => match m w with
           | (w', Ok a) => k a w'
           | (w', Err e) => (w', Err e)
           end.
Definition catch {A} (m : M A) (h : string -> M A) : M A :=
  fun w => match m w with
           | (w', Ok a) => (w', Ok a)
           | (w', Err e) => h e w'
           end.
Definition get_world : M world := fun w => (w, Ok w).
Definition modify (f : world -> world) : M unit := fun w => (f w, Ok tt).
(** A runtime TypeError when the value is missing. *)
Definition lift {A} (o : option A) : M A :=
  match o with Some a => ret a | None => throw type_error end.

Notation "x <- m ;; k" := (bind m (fun x => k))
  (at level 61, m at next level, right associativity).
Notation "m ;;; k" := (bind m (fun _ => k))
  (at level 61, right associativity).

(** ** Updating records *)

Definition set_requests (r : rate_window) (n : Z) : rate_window :=
  {| requests := n; resetTime := resetTime r; limit := limit r |}.

Definition set_rl_openai (c : api_client) (r : rate_window) : api_client :=
  {| openaiKey := openaiKey c; anthropicKey := anthropicKey c;
     rl_openai := r; rl_anthropic := rl_anthropic c |}.
Definition set_rl_anthropic (c : api_client) (r : rate_window) : api_client :=
  {| openaiKey := openaiKey c; anthropicKey := anthropicKey c;
     rl_openai := rl_openai c; rl_anthropic := r |}.

Definition set_client (w : world) (c : api_client) : world :=
  {| w_client := c; w_metrics := w_metrics w; w_agents := w_agents w; w_clock := w_clock w |}.
Definition set_metrics (w : world) (m : metrics) : world :=
  {| w_client := w_client w; w_metrics := m; w_agents := w_agents w; w_clock := w_clock w |}.
Definition set_agents (w : world) (a : list (string * agent)) : world :=
  {| w_client := w_client w; w_metrics := w_metrics w; w_agents := a; w_clock := w_clock w |}.
Definition set_clock (w : world) (t : Z) : world :=
  {| w_client := w_client w; w_metrics := w_metrics w; w_agents := w_agents w; w_clock := t |}.

Definition bump_openai (m : metrics) : metrics :=
  {| openaiRequests := openaiRequests m + 1; anthropicRequests := anthropicRequests m;
     errors := errors m |}.
Definition bump_anthropic (m : metrics) : metrics :=
  {| openaiRequests := openaiRequests m; anthropicRequests := anthropicRequests m + 1;
     errors := errors m |}.
Definition bump_errors (m : metrics) : metrics :=
  {| openaiRequests := openaiRequests m; anthropicRequests := anthropicRequests m;
     errors := errors m + 1 |}.

Definition set_memory (a : agent) (mem : list json) : agent :=
  {| ag_id := ag_id a; ag_name := ag_name a; ag_role := ag_role a;
     ag_provider := ag_provider a; ag_model := ag_model a;
     ag_instructions := ag_instructions a; ag_memory := mem; ag_created := ag_created a |}.

(** [Map.prototype.set]: an existing key keeps its place. *)
Fixpoint map_set (m : list (string * agent)) (k : string) (v : agent) : list (string * agent) :=
  match m with
  | [] => [(k, v)]
  | (k', v') :: r => if String.eqb k k' then (k', v) :: r else (k', v') :: map_set r k v
  end.

(** [Map.prototype.get]: keys are agent ids, so only a string key can hit. *)
Definition map_get (m : list (string * agent)) (k : json) : option agent :=
  match k with JStr s => assoc s m | _ => None end.

(** ** DualAPIClient.checkRateLimit

    Both [Date.now()] readings of the method happen in one synchronous
    step and see the same clock [now]. *)
Definition checkRateLimit (now : Z) (r : rate_window) : bool * rate_window :=
  let r' := if Z.gtb now (resetTime r)
            then {| requests := 0; resetTime := now + 60000; limit := limit r |}
            else r in
  (Z.ltb (requests r') (limit r'), r').

(** Lines 76-80 of [callOpenAI] (and 110-114 of [callAnthropic]): the check
    followed, when it passes, by [this.rateLimits.<p>.requests++]. *)
Definition check_and_reserve (now : Z) (r : rate_window) : bool * rate_window :=
  let '(ok, r') := checkRateLimit now r in
  if ok then (true, set_requests r' (requests r' + 1)) else (false, r').

Definition key_missing (k : option string) : bool :=
  match k with None => true | Some s => String.eqb s "" end.

(** ** The network

    [fetch] is an oracle: given the clock, the URL, the headers and the
    request body it answers with an outcome and the clock after the await. *)

Inductive body : Type :=
| BodyJson (j : json)
| BodyInvalid (message : string).  (** [response.json()] rejects *)

Inductive fetch_outcome : Type :=
| FetchRejected (message : string)
| FetchResponse (ok : bool) (status : string) (statusText : string) (b : body).

Definition key_text (k : option string) : string :=
  match k with Some s => s | None => EmptyString end.

Definition sconcat (l : list string) : string := String.concat EmptyString l.

(** [arr.filter(p)] with a predicate that may raise. *)
Fixpoint js_filter (p : json -> option bool) (l : list json) : option (list json) :=
  match l with
  | [] => Some []
  | x :: r =>
      match p x, js_filter p r with
      | Some b, Some r' => Some (if b then x :: r' else r')
      | _, _ => None
      end
  end.

(** [m => m.role === 'system'] *)
Definition role_is_system (m : json) : option bool :=
  match get_field m "role" with
  | Some r => Some (is_str r "system")
  | None => None
  end.

(** The request body of [callOpenAI]. *)
Definition openai_request_body (model : json) (messages : list json) (options : json)
  : option json :=
  match get_field options "temperature", get_field options "maxTokens" with
  | Some t, Some mt =>
      Some (JObj (obj_spread
        [("model", model); ("messages", JArr messages);
         ("temperature", js_or t (JNum "0.7"));
         ("max_tokens", js_or mt (JNum "2000"))] options))
  | _, _ => None
  end.

(** The request body of [callAnthropic], lines 118-135. *)
Definition anthropic_request_body (model : json) (messages : list json) (options : json)
  : option json :=
  match js_filter role_is_system messages,
        js_filter (fun m => option_map negb (role_is_system m)) messages with
  | Some systemMessages, Some conversationMessages =>
      match get_field options "maxTokens", get_field options "temperature",
            all_some (map (fun m => get_field m "content") systemMessages) with
      | Some mt, Some t, Some contents =>
          match js_join nl contents with
          | Some system =>
              Some (JObj (obj_spread
                [("model", model);
                 ("max_tokens", js_or mt (JNum "2000"));
                 ("temperature", js_or t (JNum "0.7"));
                 ("system", JStr system);
                 ("messages", JArr conversationMessages)] options))
          | None => None
          end
      | _, _, _ => None
      end
  | _, _ => None
  end.

(** Lines 142-153: the Anthropic reply rewritten in the OpenAI shape. *)
Definition normalize_anthropic (result : json) : option json :=
  match get_field result "content" with
  | Some content =>
      match get_first content with
      | Some block =>
          match get_field block "text", get_field result "usage" with
          | Some text, Some usage =>
              Some (JObj [("choices", JArr [JObj [("message",
                      JObj [("role", JStr "assistant"); ("content", text)])]]);
                          ("usage", usage)])
          | _, _ => None
          end
      | None => None
      end
  | None => None
  end.

(** The fields downstream code reads from a reply:
    [response.choices[0].message.content] and [response.usage]. *)
Definition reply_view (r : json) : option (json * json) :=
  match get_field r "choices" with
  | Some ch =>
      match get_first ch with
      | Some c0 =>
          match get_field c0 "message" with
          | Some msg =>
              match get_field msg "content", get_field r "usage" with
              | Some c, Some u => Some (c, u)
              | _, _ => None
              end
          | None => None
          end
      | None => None
      end
  | None => None
  end.

Section Engine.

Variable network : Z -> string -> list (string * string) -> json -> fetch_outcome * Z.

Definition fetch (url : string) (headers : list (string * string)) (req : json)
  : M fetch_outcome :=
  fun w => let '(o, t) := network (w_clock w) url headers req in (set_clock w t, Ok o).

Definition response_json (b : body) : M json :=
  match b with BodyJson j => ret j | BodyInvalid m => throw m end.

Definition callOpenAI (messages : list json) (model options : json) : M json :=
  let model := default_param model (JStr "gpt-4") in
  let options := default_param options (JObj []) in
  w <- get_world ;;
  if key_missing (openaiKey (w_client w)) then throw "OpenAI API key not configured" else
  let key := key_text (openaiKey (w_client w)) in
  let '(ok, r) := checkRateLimit (w_clock w) (rl_openai (w_client w)) in
  modify (fun w => set_client w (set_rl_openai (w_client w) r)) ;;;
  if negb ok then throw "OpenAI rate limit exceeded" else
  modify (fun w => set_client w (set_rl_openai (w_client w)
            (set_requests (rl_openai (w_client w)) (requests (rl_openai (w_client w)) + 1)))) ;;;
  modify (fun w => set_metrics w (bump_openai (w_metrics w))) ;;;
  req <- lift (openai_request_body model messages options) ;;
  response <- fetch "https://api.openai.com/v1/chat/completions"
                [("Authorization", String.append "Bearer " key);
                 ("Content-Type", "application/json")] req ;;
  match response with
  | FetchRejected m => throw m
  | FetchResponse ok status statusText b =>
      if negb ok then throw (sconcat ["OpenAI API error: "; status; " "; statusText])
      else response_json b
  end.

Definition callAnthropic (messages : list json) (model options : json) : M json :=
  let model := default_param model (JStr "claude-3-5-sonnet-20241022") in
  let options := default_param options (JObj []) in
  w <- get_world ;;
  if key_missing (anthropicKey (w_client w)) then throw "Anthropic API key not configured" else
  let key := key_text (anthropicKey (w_client w)) in
  let '(ok, r) := checkRateLimit (w_clock w) (rl_anthropic (w_client w)) in
  modify (fun w => set_client w (set_rl_anthropic (w_client w) r)) ;;;
  if negb ok then throw "Anthropic rate limit exceeded" else
  modify (fun w => set_client w (set_rl_anthropic (w_client w)
            (set_requests (rl_anthropic (w_client w)) (requests (rl_anthropic (w_client w)) + 1)))) ;;;
  modify (fun w => set_metrics w (bump_anthropic (w_metrics w))) ;;;
  req <- lift (anthropic_request_body model messages options) ;;
  response <- fetch "https://api.anthropic.com/v1/messages"
                [("x-api-key", key); ("Content-Type", "application/json");
                 ("anthropic-version", "2023-06-01")] req ;;
  match response with
  | FetchRejected m => throw m
  | FetchResponse ok status statusText b =>
      if negb ok then throw (sconcat ["Anthropic API error: "; status; " "; statusText])
      else (result <- response_json b ;; lift (normalize_anthropic result))
  end.

Definition callAPI (provider : json) (messages : list json) (model options : json) : M json :=
  let options := default_param options (JObj []) in
  catch (if is_str provider "openai" then callOpenAI messages model options
         else if is_str provider "anthropic" then callAnthropic messages model options
         else (p <- lift (js_to_string provider) ;;
               throw (String.append "Unsupported provider: " p)))
        (fun e => modify (fun w => set_metrics w (bump_errors (w_metrics w))) ;;; throw e).

(** ** DualAPIOrchestrator *)

Definition memory_cap_size : nat := 20.

(** Lines 225-227: [if (memory.length > 20) memory = memory.slice(-20)]. *)
Definition memory_cap (mem : list json) : list json :=
  if Nat.ltb memory_cap_size (length mem) then slice_last memory_cap_size mem else mem.

Definition user_message (message : json) : json :=
  JObj [("role", JStr "user"); ("content", message)].

Definition system_message (instructions : json) : json :=
  JObj [("role", JStr "system"); ("content", instructions)].

(** The value [executeAgent] resolves to:
    [{agent: {id, name, role, provider}, response, usage}]. *)
Record exec_result := {
  r_agent_id : string;
  r_name : json;
  r_role : json;
  r_provider : json;
  r_response : json;
  r_usage : json
}.

(** [this.agents.get(agentId)]: the Map is keyed by the string ids. *)
Definition find_agent (agents : list (string * agent)) (agentId : json)
  : option (string * agent) :=
  match agentId with
  | JStr k => match assoc k agents with Some a => Some (k, a) | None => None end
  | _ => None
  end.

Definition createAgent (fresh_id : string) (config : json) : M agent :=
  name <- lift (get_field config "name") ;;
  role <- lift (get_field config "role") ;;
  provider <- lift (get_field config "provider") ;;
  model <- lift (get_field config "model") ;;
  instructions <- lift (get_field config "instructions") ;;
  w <- get_world ;;
  let agent := {|
    ag_id := fresh_id;
    ag_name := js_or name (JStr "Agent");
    ag_role := js_or role (JStr "Assistant");
    ag_provider := js_or provider (JStr "openai");
    ag_model := js_or model (JStr (if is_str provider "anthropic"
                                   then "claude-3-5-sonnet-20241022" else "gpt-4"));
    ag_instructions := js_or instructions (JStr "You are a helpful AI assistant.");
    ag_memory := [];
    ag_created := w_clock w |} in
  modify (fun w => set_agents w (map_set (w_agents w) fresh_id agent)) ;;;
  ret agent.

(** [agent] is the object read from the Map before the provider call; the
    call does not touch the Map, so the push acts on that object. *)
Definition executeAgent (agentId message context : json) : M exec_result :=
  let context := default_param context (JObj []) in
  w <- get_world ;;
  match find_agent (w_agents w) agentId with
  | None => throw "Agent not found"
  | Some (key, agent) =>
      let messages := system_message (ag_instructions agent)
                        :: ag_memory agent ++ [user_message message] in
      opts <- lift (get_field context "options") ;;
      response <- callAPI (ag_provider agent) messages (ag_model agent)
                    (js_or opts (JObj [])) ;;
      choices <- lift (get_field response "choices") ;;
      c0 <- lift (get_first choices) ;;
      assistantMessage <- lift (get_field c0 "message") ;;
      modify (fun w => set_agents w (map_set (w_agents w) key
                (set_memory agent (memory_cap (ag_memory agent
                                     ++ [user_message message; assistantMessage]))))) ;;;
      content <- lift (get_field assistantMessage "content") ;;
      usage <- lift (get_field response "usage") ;;
      ret {| r_agent_id := ag_id agent; r_name := ag_name agent; r_role := ag_role agent;
             r_provider := ag_provider agent; r_response := content; r_usage := usage |}
  end.

End Engine.

(** ** DualAPIOrchestrator.collaborateAgents

    The coordinator is stated over any [executeAgent] behaviour [exec]. *)

Inductive turn : Type :=
| TurnOk (iteration : nat) (timestamp : Z) (res : exec_result)
| TurnErr (iteration : nat) (timestamp : Z) (agentId : json) (error : string).

Record collaboration := {
  c_id : string;
  c_goal : json;
  c_agents : list json;
  c_conversation : list turn;
  c_started : Z;
  c_completed : option Z
}.

(** [r.agent.name] and [r.response]: an error record's [agent] is [{id}]. *)
Definition turn_name (t : turn) : json :=
  match t with TurnOk _ _ res => r_name res | TurnErr _ _ _ _ => JUndefined end.
Definition turn_response (t : turn) : json :=
  match t with TurnOk _ _ res => r_response res | TurnErr _ _ _ _ => JUndefined end.

(** [`${r.agent.name}: ${r.response}`] *)
Definition turn_line (t : turn) : option string :=
  match js_to_string (turn_name t), js_to_string (turn_response t) with
  | Some n, Some r => Some (sconcat [n; ": "; r])
  | _, _ => None
  end.

(** Lines 264-267, the prompt built from the last [n] records. *)
Definition digest (n : nat) (conv : list turn) : option string :=
  match all_some (map turn_line (slice_last n conv)) with
  | Some lines =>
      Some (sconcat ["Previous responses:"; nl; join (String.append nl nl) lines; nl; nl;
                     "Please build upon these ideas and continue working toward our goal."])
  | None => None
  end.

Definition initial_prompt (g : string) : string :=
  sconcat ["Goal: "; g; nl; nl;
           "Let's work together to achieve this goal. Please provide your initial thoughts and approach."].

Section Collaborate.

Variable exec : json -> json -> json -> M exec_result.

(** One pass of the inner loop body (lines 254-276).  [conversation] is one
    mutable array: a record pushed in the [try] stays when the prompt
    computation after it throws and the [catch] pushes again. *)
Definition agent_turn (n i : nat) (agentId : json) (cur : string) (conv : list turn)
  : M (string * list turn) :=
  fun w =>
    match exec agentId (JStr cur) (JObj []) w with
    | (w1, Ok res) =>
        let conv1 := conv ++ [TurnOk (S i) (w_clock w1) res] in
        match digest n conv1 with
        | Some d => (w1, Ok (d, conv1))
        | None => (w1, Ok (cur, conv1 ++ [TurnErr (S i) (w_clock w1) agentId type_error]))
        end
    | (w1, Err e) => (w1, Ok (cur, conv ++ [TurnErr (S i) (w_clock w1) agentId e]))
    end.

Fixpoint run_round (n i : nat) (ids : list json) (cur : string) (conv : list turn)
  : M (string * list turn) :=
  match ids with
  | [] => ret (cur, conv)
  | id :: rest =>
      p <- agent_turn n i id cur conv ;;
      run_round n i rest (fst p) (snd p)
  end.

(** [for (let i = start; ...; i++)] with [k] passes left. *)
Fixpoint run_iterations (n : nat) (ids : list json) (i k : nat) (cur : string)
  (conv : list turn) : M (string * list turn) :=
  match k with
  | O => ret (cur, conv)
  | S k' =>
      p <- run_round n i ids cur conv ;;
      run_iterations n ids (S i) k' (fst p) (snd p)
  end.

Definition collaborate_with (fresh_id : string) (agentIds : list json) (goal : json)
  (iterations : nat) : M collaboration :=
  w0 <- get_world ;;
  g <- lift (js_to_string goal) ;;
  p <- run_iterations (length agentIds) agentIds 0 iterations (initial_prompt g) [] ;;
  w1 <- get_world ;;
  ret {| c_id := fresh_id; c_goal := goal; c_agents := agentIds;
         c_conversation := snd p; c_started := w_clock w0; c_completed := Some (w_clock w1) |}.

End Collaborate.

Definition collaborateAgents network (fresh_id : string) (agentIds : list json)
  (goal : json) (iterations : nat) : M collaboration :=
  collaborate_with (executeAgent network) fresh_id agentIds goal iterations.

(** The prompt the transition rule assigns, read from the conversation
    alone: a success record [t] re-derives the prompt as the digest of the
    last [n] records of the conversation up to and including [t], when that
    digest formats; an error record, or a digest that does not format,
    leaves it as it was. *)
Definition prompt_step (n : nat) (cur : string) (conv : list turn) (t : turn) : string :=
  match t with
  | TurnOk _ _ _ => match digest n (conv ++ [t]) with Some d => d | None => cur end
  | TurnErr _ _ _ _ => cur
  end.

Fixpoint prompt_scan (n : nat) (cur : string) (pre rest : list turn) : string :=
  match rest with
  | [] => cur
  | t :: rest' => prompt_scan n (prompt_step n cur pre t) (pre ++ [t]) rest'
  end.

Definition prompt_after (n : nat) (init : string) (conv : list turn) : string :=
  prompt_scan n init [] conv.

(** ** Fixtures: concrete processes the examples run on *)

Definition window_of (n lim : Z) : rate_window :=
  {| requests := n; resetTime := 100000; limit := lim |}.

Definition metrics0 : metrics :=
  {| openaiRequests := 0; anthropicRequests := 0; errors := 0 |}.

Definition process (okey akey : option string) (lim : Z) : world :=
  {| w_client := {| openaiKey := okey; anthropicKey := akey;
                    rl_openai := window_of 0 lim; rl_anthropic := window_of 0 lim |};
     w_metrics := metrics0; w_agents := []; w_clock := 1000 |}.

(** A ProviderA reply and a ProviderB reply carrying the same text and usage. *)
Definition openai_reply (c u : json) : json :=
  JObj [("choices", JArr [JObj [("message", JObj [("role", JStr "assistant"); ("content", c)])]]);
        ("usage", u)].

Definition anthropic_reply (c u : json) : json :=
  JObj [("content", JArr [JObj [("type", JStr "text"); ("text", c)]]); ("usage", u)].

Definition usage0 : json := JObj [("total_tokens", JNum "5")].

(** A ProviderB reply with more fields and two text blocks. *)
Definition two_block_reply : list (string * json) :=
  [("id", JStr "msg_1"); ("type", JStr "message");
   ("content", JArr [JObj [("type", JStr "text"); ("text", JStr "x")];
                     JObj [("type", JStr "text"); ("text", JStr "y")]]);
   ("stop_reason", JStr "end_turn"); ("usage", usage0)].

(** Both providers answer; the reply text is the clock reading, so replies differ. *)
Definition net_ok (t : Z) (url : string) (h : list (string * string)) (req : json)
  : fetch_outcome * Z :=
  let c := JStr (String.append "reply " (string_of_nat (Z.to_nat t))) in
  if String.eqb url "https://api.anthropic.com/v1/messages"
  then (FetchResponse true "200" "OK" (BodyJson (anthropic_reply c usage0)), t + 1)
  else (FetchResponse true "200" "OK" (BodyJson (openai_reply c usage0)), t + 1).

(** Every request gets an HTTP 500. *)
Definition net_down (t : Z) (url : string) (h : list (string * string)) (req : json)
  : fetch_outcome * Z :=
  (FetchResponse false "500" "Internal Server Error" (BodyInvalid "Unexpected end of JSON input"), t + 1).

(** [POST /api/agents] for each configuration, with the given fresh ids. *)
Fixpoint create_all (cfgs : list (string * json)) : M unit :=
  match cfgs with
  | [] => ret tt
  | (id, cfg) :: r => createAgent id cfg ;;; create_all r
  end.

Definition named (n : json) : json := JObj [("name", n)].

(** Three agents; the second uses ProviderB, whose key is not configured. *)
Definition trio : world :=
  fst (create_all [("a1", named (JStr "A"));
                   ("a2", JObj [("name", JStr "B"); ("provider", JStr "anthropic")]);
                   ("a3", named (JStr "C"))] (process (Some "sk-a") None 60)).

Definition duo : world :=
  fst (create_all [("a1", named (JStr "A")); ("a2", named (JStr "B"))]
                  (process (Some "sk-a") None 60)).

(** [n] successive executions on one agent, messages ["m0"], ["m1"], ... *)
Fixpoint exchanges (network : Z -> string -> list (string * string) -> json -> fetch_outcome * Z)
  (id : json) (i n : nat) : M unit :=
  match n with
  | O => ret tt
  | S n' => executeAgent network id (JStr (String.append "m" (string_of_nat i))) JUndefined ;;;
            exchanges network id (S i) n'
  end.

Definition agent_memory (w : world) (k : string) : option (list json) :=
  option_map ag_memory (assoc k (w_agents w)).

Definition printable_result (r : exec_result) : Prop :=
  js_to_string (r_name r) <> None /\ js_to_string (r_response r) <> None.

(** Every successful turn of [exec] yields a name and a reply that print. *)
Definition exec_printable (exec : json -> json -> json -> M exec_result) : Prop :=
  forall id m c w w1 r, exec id m c w = (w1, Ok r) -> printable_result r.

Definition conv_printable (conv : list turn) : Prop :=
  forall t, In t conv -> turn_line t <> None.

Definition mem_bounded (w : world) : Prop :=
  forall k a, In (k, a) (w_agents w) -> (length (ag_memory a) <= memory_cap_size)%nat.

Definition msg_json (m : string * string) : json :=
  JObj [("role", JStr (fst m)); ("content", JStr (snd m))].

Definition is_system_msg (m : string * string) : bool := String.eqb (fst m) "system".

Definition succeeded {A} (r : result A) : bool :=
  match r with Ok _ => true | Err _ => false end.

(** Three ProviderA calls with limit 1: at [t = 1000], again at once, and
    after the window ending at [100000] has elapsed. *)
Definition limit_one_run : result json * result json * Z * result json :=
  let p := process (Some "sk-a") None 1 in
  let s1 := callOpenAI net_ok [] JUndefined JUndefined p in
  let s2 := callOpenAI net_ok [] JUndefined JUndefined (fst s1) in
  let s3 := callOpenAI net_ok [] JUndefined JUndefined (set_clock (fst s2) 100001) in
  (snd s1, snd s2, requests (rl_openai (w_client (fst s2))), snd s3).

(** ProviderB configured, its window of limit 1 already used up. *)
Definition anthropic_spent : world :=
  {| w_client := {| openaiKey := None; anthropicKey := Some "sk-b";
                    rl_openai := window_of 0 1; rl_anthropic := window_of 1 1 |};
     w_metrics := metrics0; w_agents := []; w_clock := 1000 |}.

(** [m] keeps the invariant [P] of the world. *)
Definition preserves {A} (P : world -> Prop) (m : M A) : Prop :=
  forall w, P w -> P (fst (m w)).

(** [response.choices[0].message], lines 216-217. *)
Definition reply_message (response : json) : option json :=
  match get_field response "choices" with
  | Some choices =>
      match get_first choices with
      | Some c0 => get_field c0 "message"
      | None => None
      end
  | None => None
  end.

(** ProviderA agent [a1] of [trio], as [createAgent] built it. *)
Definition agent_a : agent :=
  {| ag_id := "a1"; ag_name := JStr "A"; ag_role := JStr "Assistant";
     ag_provider := JStr "openai"; ag_model := JStr "gpt-4";
     ag_instructions := JStr "You are a helpful AI assistant."; ag_memory := [];
     ag_created := 1000 |}.

(** ProviderB agent [a2] of [trio], as [createAgent] built it. *)
Definition agent_b : agent :=
  {| ag_id := "a2"; ag_name := JStr "B"; ag_role := JStr "Assistant";
     ag_provider := JStr "anthropic"; ag_model := JStr "claude-3-5-sonnet-20241022";
     ag_instructions := JStr "You are a helpful AI assistant."; ag_memory := [];
     ag_created := 1000 |}.

(** The messages [exchanges net_ok _ 0 n] appends, starting at clock 1000. *)
Definition appended_messages (n : nat) : list json :=
  flat_map (fun i => [user_message (JStr (String.append "m" (string_of_nat i)));
                      JObj [("role", JStr "assistant");
                            ("content", JStr (String.append "reply " (string_of_nat (1000 + i))))]])
           (seq 0 n).

Definition is_error_turn (t : turn) : bool :=
  match t with TurnErr _ _ _ _ => true | TurnOk _ _ _ => false end.

(** Agent [a1] named by an object carrying an own [toString] key, as a JSON
    body [{"name": {"toString": 0}}] creates it. *)
Definition odd_named : world :=
  fst (create_all [("a1", named (JObj [("toString", JNum "0")]))] (process (Some "sk-a") None 60)).

(** Agent [a1] on ProviderA, agent [a2] on ProviderB whose key is missing. *)
Definition duo_b : world :=
  fst (create_all [("a1", named (JStr "A"));
                   ("a2", JObj [("name", JStr "B"); ("provider", JStr "anthropic")])]
                  (process (Some "sk-a") None 60)).

Definition goal_prompt : string := initial_prompt "g".

(** The prompt [a1] receives in iteration 2 of [duo]: round 1 by name. *)
Definition round_one_digest : string :=
  sconcat ["Previous responses:"; nl; "A: reply 1000"; nl; nl; "B: reply 1001"; nl; nl;
           "Please build upon these ideas and continue working toward our goal."].

Definition assistant_text (c : string) : json :=
  JObj [("role", JStr "assistant"); ("content", JStr c)].

(** One system message and two alternating user/assistant messages. *)
Definition three_msgs : list (string * string) :=
  [("system", "Be brief."); ("user", "Hi"); ("assistant", "Hello")].

(** Both keys configured, both windows empty. *)
Definition both_keys : world := process (Some "sk-a") (Some "sk-b") 60.

(** [POST /api/agents] with [{"provider": "gemini"}]. *)
Definition gemini_config : json := JObj [("provider", JStr "gemini")].

(** ** Statement helpers for objects built by spreading options *)

(** [opts[k]] when [k] is an own key of the options object, [d] otherwise. *)
Definition own_or (opts : list (string * json)) (k : string) (d : json) : json :=
  match assoc k opts with Some v => v | None => d end.

(** [o.k] on an object literal or parsed object. *)
Definition prop (fs : list (string * json)) (k : string) : json := own_or fs k JUndefined.

(** A rate window whose count is within its limit (or 0 for a limit below 0). *)
Definition window_ok (r : rate_window) : Prop := requests r <= Z.max (limit r) 0.

Definition windows_ok (w : world) : Prop :=
  window_ok (rl_openai (w_client w)) /\ window_ok (rl_anthropic (w_client w)).

(** ** HTTP routes, lines 372-408 *)

(** [GET /api/agents]: [Array.from(orchestrator.agents.values())]. *)
Definition list_agents (w : world) : list agent := map snd (w_agents w).

(** What a route handler sends: [res.json({success: true, <payload>})] from
    its [try], or [res.status(400).json({error: error.message})] from its
    [catch]. *)
Inductive response (A : Type) : Type :=
| Respond200 (payload : A)
| Respond400 (error : string).
Arguments Respond200 {A} payload.
Arguments Respond400 {A} error.

Definition route {A} (m : M A) : M (response A) :=
  fun w => match m w with
           | (w', Ok a) => (w', Ok (Respond200 a))
           | (w', Err e) => (w', Ok (Respond400 e))
           end.

(** [POST /api/agents]; [fresh_id] is the [uuidv4()] drawn by [createAgent]. *)
Definition post_agents (fresh_id : string) (body : json) : M (response agent) :=
  route (createAgent fresh_id body).

(** [POST /api/agents/:id/execute]: [const { message, options } = req.body]. *)
Definition post_execute network (id : string) (body : json) : M (response exec_result) :=
  route (message <- lift (get_field body "message") ;;
         options <- lift (get_field body "options") ;;
         executeAgent network (JStr id) message (JObj [("options", options)])).

(** ** The middleware in front of the routes, lines 285-323

    [helmet], [cors] and [compression] only set headers, and
    [express.static] hands POST requests on.  The global limiter
    ([express-rate-limit]: by default 100 requests per minute and IP) keeps
    its counts in the library's own store, so whether it refuses a request
    is an input here; so is the outcome of [express.json()] and
    [express.urlencoded()], which either reject the body (400 for
    malformed JSON, 413 above 10mb) or hand [req.body] on.  The logging
    middleware then counts the request and calls the route. *)
Inductive incoming : Type :=
| Limited
| BodyRejected (status : Z)
| Reached (body : json).

Inductive http_reply (A : Type) : Type :=
| HttpRoute (r : response A)
| HttpTooMany (message : string)
| HttpBodyError (status : Z).
Arguments HttpRoute {A} r.
Arguments HttpTooMany {A} message.
Arguments HttpBodyError {A} status.

(** What a request sees of the process: the engine state and
    [metrics.requests], which only the logging middleware touches. *)
Record http_state := {
  hs_world : world;
  hs_requests : Z
}.

Definition serve {A} (req : incoming) (handler : json -> M (response A)) (s : http_state)
  : http_state * result (http_reply A) :=
  match req with
  | Limited => (s, Ok (HttpTooMany "Too many requests from this IP"))
  | BodyRejected status => (s, Ok (HttpBodyError status))
  | Reached body =>
      match handler body (hs_world s) with
      | (w', Ok r) => ({| hs_world := w'; hs_requests := hs_requests s + 1 |}, Ok (HttpRoute r))
      | (w', Err e) => ({| hs_world := w'; hs_requests := hs_requests s + 1 |}, Err e)
      end
  end.

(** ** WebSocket message handler, lines 433-482 *)

(** The frame received: [JSON.parse(data)] either yields a value or throws
    a SyntaxError with the given message. *)
Inductive ws_data : Type :=
| Parsed (v : json)
| Unparsable (message : string).

Definition parse_data (d : ws_data) : M json :=
  match d with Parsed v => ret v | Unparsable m => throw m end.

Section WebSocket.

Variable network : Z -> string -> list (string * string) -> json -> fetch_outcome * Z.

(** What [orchestrator.collaborateAgents(agentIds, goal, iterations)] yields
    on the raw values of the message. *)
Variable C : Type.
Variable collaborate : json -> json -> json -> M C.

(** The frames [ws.send(JSON.stringify({...}))] sends back. *)
Inductive ws_reply : Type :=
| WsPong (timestamp : Z)
| WsAgentResponse (requestId : json) (result : exec_result) (timestamp : Z)
| WsCollaborationResult (requestId : json) (collaboration : C) (timestamp : Z)
| WsError (message : string) (timestamp : Z).

(** The [switch (message.type)]. *)
Definition ws_dispatch (message : json) : M ws_reply :=
  ty <- lift (get_field message "type") ;;
  if is_str ty "ping" then (w <- get_world ;; ret (WsPong (w_clock w)))
  else if is_str ty "execute_agent" then
    (agentId <- lift (get_field message "agentId") ;;
     msg <- lift (get_field message "message") ;;
     context <- lift (get_field message "context") ;;
     result <- executeAgent network agentId msg (js_or context (JObj [])) ;;
     requestId <- lift (get_field message "requestId") ;;
     w <- get_world ;;
     ret (WsAgentResponse requestId result (w_clock w)))
  else if is_str ty "start_collaboration" then
    (agentIds <- lift (get_field message "agentIds") ;;
     goal <- lift (get_field message "goal") ;;
     iterations <- lift (get_field message "iterations") ;;
     collaboration <- collaborate agentIds goal (js_or iterations (JNum "3")) ;;
     requestId <- lift (get_field message "requestId") ;;
     w <- get_world ;;
     ret (WsCollaborationResult requestId collaboration (w_clock w)))
  else (w <- get_world ;; ret (WsError "Unknown message type" (w_clock w))).

(** The [try]/[catch] of the handler; the update of [session.lastActivity]
    that opens the [try] is [ws_touch] below. *)
Definition ws_on_message (data : ws_data) : M ws_reply :=
  catch (message <- parse_data data ;; ws_dispatch message)
        (fun e => w <- get_world ;; ret (WsError e (w_clock w))).

End WebSocket.

Arguments WsPong {C} timestamp.
Arguments WsAgentResponse {C} requestId result timestamp.
Arguments WsCollaborationResult {C} requestId collaboration timestamp.
Arguments WsError {C} message timestamp.
Arguments ws_dispatch network {C} collaborate message.
Arguments ws_on_message network {C} collaborate data.

(** ** WebSocket sessions, lines 419-431 and 484-509

    Session objects live in a heap [ws_heap] (the [n]-th connection's
    object at index [n]); the [sessions] Map holds references to them, so
    the handler closures of a connection and the Map share one object. *)

Record session := {
  s_id : string;
  s_ip : json;
  s_created : Z;
  s_lastActivity : Z
}.

(** The [sessions] Map, the session objects, and the two session fields
    of [metrics]. *)
Record ws_server := {
  ws_sessions : list (string * nat);
  ws_heap : list session;
  activeSessions : Z;
  totalSessions : Z
}.

Definition ws_init : ws_server :=
  {| ws_sessions := []; ws_heap := []; activeSessions := 0; totalSessions := 0 |}.

(** [Map.prototype.set] and [Map.prototype.delete]. *)
Fixpoint map_put {A} (m : list (string * A)) (k : string) (v : A) : list (string * A) :=
  match m with
  | [] => [(k, v)]
  | (k', v') :: r => if String.eqb k k' then (k', v) :: r else (k', v') :: map_put r k v
  end.

Fixpoint map_delete {A} (k : string) (m : list (string * A)) : list (string * A) :=
  match m with
  | [] => []
  | (k', v) :: r => if String.eqb k k' then r else (k', v) :: map_delete k r
  end.

Fixpoint list_update {A} (l : list A) (n : nat) (f : A -> A) : list A :=
  match l, n with
  | [], _ => []
  | x :: r, O => f x :: r
  | x :: r, S n' => x :: list_update r n' f
  end.

(** [wss.on('connection')]: a new session object under [sessionId]; the
    result also names the new object. *)
Definition ws_connect (sessionId : string) (ip : json) (now : Z) (s : ws_server)
  : ws_server * nat :=
  let ref := length (ws_heap s) in
  let sess := {| s_id := sessionId; s_ip := ip; s_created := now; s_lastActivity := now |} in
  let m := map_put (ws_sessions s) sessionId ref in
  ({| ws_sessions := m; ws_heap := ws_heap s ++ [sess];
      activeSessions := Z.of_nat (length m); totalSessions := totalSessions s + 1 |}, ref).

(** [session.lastActivity = Date.now()] at the start of [ws.on('message')]. *)
Definition ws_touch (ref : nat) (now : Z) (s : ws_server) : ws_server :=
  {| ws_sessions := ws_sessions s;
     ws_heap := list_update (ws_heap s) ref
                  (fun x => {| s_id := s_id x; s_ip := s_ip x; s_created := s_created x;
                               s_lastActivity := now |});
     activeSessions := activeSessions s; totalSessions := totalSessions s |}.

(** [ws.on('close')]: [sessions.delete(sessionId)], then the count. *)
Definition ws_close (sessionId : string) (s : ws_server) : ws_server :=
  let m := map_delete sessionId (ws_sessions s) in
  {| ws_sessions := m; ws_heap := ws_heap s;
     activeSessions := Z.of_nat (length m); totalSessions := totalSessions s |}.

(** [ws.on('error')] does the same to the state. *)
Definition ws_error (sessionId : string) (s : ws_server) : ws_server := ws_close sessionId s.

Definition session_timeout : Z := 30 * 60 * 1000.

(** [now - session.lastActivity > timeout] for the object an entry refers to. *)
Definition stale (s : ws_server) (now : Z) (e : string * nat) : bool :=
  match nth_error (ws_heap s) (snd e) with
  | Some sess => Z.ltb session_timeout (now - s_lastActivity sess)
  | None => false
  end.

(** The cleanup interval.  Deleting the entry being visited does not
    disturb a Map iterator, so the loop visits the entries present when it
    starts; the second component lists the sessions it terminated. *)
Definition ws_cleanup (now : Z) (s : ws_server) : ws_server * list nat :=
  let '(m, terminated) :=
    fold_left (fun acc e =>
                 if stale s now e then (map_delete (fst e) (fst acc), snd acc ++ [snd e])
                 else acc)
              (ws_sessions s) (ws_sessions s, []) in
  ({| ws_sessions := m; ws_heap := ws_heap s;
      activeSessions := Z.of_nat (length m); totalSessions := totalSessions s |}, terminated).

Inductive ws_event : Type :=
| EvConnect (sessionId : string) (ip : json)
| EvMessage (ref : nat)
| EvClose (sessionId : string)
| EvError (sessionId : string)
| EvCleanup.

Definition ws_step (now : Z) (e : ws_event) (s : ws_server) : ws_server :=
  match e with
  | EvConnect id ip => fst (ws_connect id ip now s)
  | EvMessage ref => ws_touch ref now s
  | EvClose id => ws_close id s
  | EvError id => ws_error id s
  | EvCleanup => fst (ws_cleanup now s)
  end.

Definition ws_run (trace : list (Z * ws_event)) (s : ws_server) : ws_server :=
  fold_left (fun s te => ws_step (fst te) (snd te) s) trace s.

Definition ws_consistent (s : ws_server) : Prop :=
  activeSessions s = Z.of_nat (length (ws_sessions s))
  /\ Z.of_nat (length (ws_sessions s)) <= totalSessions s
  /\ NoDup (map fst (ws_sessions s))
  /\ (forall k ref, In (k, ref) (ws_sessions s) -> (ref < length (ws_heap s))%nat).

(** ** Collaboration records *)

Definition turn_time (t : turn) : Z :=
  match t with TurnOk _ ts _ => ts | TurnErr _ ts _ _ => ts end.

(** The records' timestamps lie between [s0] and the clock of [w] and are
    in nondecreasing order. *)
Definition times_ok (s0 : Z) (w : world) (conv : list turn) : Prop :=
  s0 <= w_clock w
  /\ Forall (fun x => s0 <= x <= w_clock w) (map turn_time conv)
  /\ StronglySorted Z.le (map turn_time conv).

Definition turn_iteration (t : turn) : nat :=
  match t with TurnOk i _ _ => i | TurnErr i _ _ _ => i end.

(** Two sessions, opened at [t = 0] and [t = 1000000]. *)
Definition two_sessions : ws_server :=
  ws_run [(0, EvConnect "s1" (JStr "127.0.0.1")); (1000000, EvConnect "s2" (JStr "127.0.0.1"))] ws_init.

(** A message on the first connection at [t = 1900000]. *)
Definition two_sessions_active : ws_server := ws_step 1900000 (EvMessage 0) two_sessions.

(** [m] leaves the projection [f] of the world unchanged. *)
Definition keeps {A B} (f : world -> B) (m : M A) : Prop := forall w, f (fst (m w)) = f w.

(** ** Frame lemmas for the monad *)

Lemma keeps_ret {A B} (f : world -> B) (a : A) : keeps f (ret a).
Proof. intros w; reflexivity. Qed.
Lemma keeps_throw {A B} (f : world -> B) msg : keeps f (@throw A msg).
Proof. intros w; reflexivity. Qed.
Lemma keeps_lift {A B} (f : world -> B) (o : option A) : keeps f (lift o).
Proof. destruct o; intros w; reflexivity. Qed.
Lemma keeps_get_world {B} (f : world -> B) : keeps f get_world.
Proof. intros w; reflexivity. Qed.
Lemma keeps_response_json {B} (f : world -> B) b : keeps f (response_json b).
Proof. destruct b; intros w; reflexivity. Qed.
Lemma keeps_bind {A C B} (f : world -> B) (m : M A) (k : A -> M C) :
  keeps f m -> (forall a, keeps f (k a)) -> keeps f (bind m k).
Proof.
  intros Hm Hk w. unfold bind. specialize (Hm w).
  destruct (m w) as [w' [a|e]]; simpl in *; [rewrite Hk|]; exact Hm.
Qed.
Lemma keeps_catch {A B} (f : world -> B) (m : M A) h :
  keeps f m -> (forall e, keeps f (h e)) -> keeps f (catch m h).
Proof.
  intros Hm Hh w. unfold catch. specialize (Hm w).
  destruct (m w) as [w' [a|e]]; simpl in *; [|rewrite Hh]; exact Hm.
Qed.
Lemma keeps_modify {B} (f : world -> B) g : (forall w, f (g w) = f w) -> keeps f (modify g).
Proof. intros H w; apply H. Qed.
Lemma keeps_fetch {B} (f : world -> B) network url h req :
  (forall w t, f (set_clock w t) = f w) -> keeps f (fetch network url h req).
Proof. intros H w. unfold fetch. destruct (network _ _ _ _); apply H. Qed.

Create HintDb keeps.
#[local] Hint Resolve keeps_ret keeps_throw keeps_lift keeps_get_world keeps_response_json : keeps.

Ltac keeps_tac :=
  repeat first
    [ progress (intros)
    | apply keeps_bind
    | apply keeps_catch
    | apply keeps_fetch; reflexivity
    | apply keeps_modify; reflexivity
    | match goal with |- keeps _ (match ?x with _ => _ end) => destruct x end
    | match goal with |- keeps _ (if ?x then _ else _) => destruct x end
    | solve [auto with keeps] ].

(** ** Rate limiter *)

Lemma checkRateLimit_window now r :
  snd (checkRateLimit now r) =
  if Z.gtb now (resetTime r)
  then {| requests := 0; resetTime := now + 60000; limit := limit r |} else r.
Proof. reflexivity. Qed.

Lemma callOpenAI_window network messages model options w :
  key_missing (openaiKey (w_client w)) = false ->
  rl_openai (w_client (fst (callOpenAI network messages model options w))) =
  snd (check_and_reserve (w_clock w) (rl_openai (w_client w))).
Proof.
  intros H. unfold callOpenAI, check_and_reserve. cbn [bind get_world]. rewrite H.
  destruct (checkRateLimit (w_clock w) (rl_openai (w_client w))) as [ok r] eqn:E.
  destruct ok; [|reflexivity].
  cbn [bind modify negb fst snd].
  match goal with |- rl_openai (w_client (fst (?m ?w0))) = _ =>
    assert (Hk : keeps w_client m) by keeps_tac; rewrite (Hk w0) end.
  reflexivity.
Qed.

Lemma callAnthropic_window network messages model options w :
  key_missing (anthropicKey (w_client w)) = false ->
  rl_anthropic (w_client (fst (callAnthropic network messages model options w))) =
  snd (check_and_reserve (w_clock w) (rl_anthropic (w_client w))).
Proof.
  intros H. unfold callAnthropic, check_and_reserve. cbn [bind get_world]. rewrite H.
  destruct (checkRateLimit (w_clock w) (rl_anthropic (w_client w))) as [ok r] eqn:E.
  destruct ok; [|reflexivity].
  cbn [bind modify negb fst snd].
  match goal with |- rl_anthropic (w_client (fst (?m ?w0))) = _ =>
    assert (Hk : keeps w_client m) by keeps_tac; rewrite (Hk w0) end.
  reflexivity.
Qed.

Lemma callOpenAI_denied network messages model options w :
  key_missing (openaiKey (w_client w)) = false ->
  fst (check_and_reserve (w_clock w) (rl_openai (w_client w))) = false ->
  callOpenAI network messages model options w =
    (set_client w (set_rl_openai (w_client w) (snd (check_and_reserve (w_clock w) (rl_openai (w_client w))))),
     Err "OpenAI rate limit exceeded").
Proof.
  intros H. unfold callOpenAI, check_and_reserve. cbn [bind get_world]. rewrite H.
  destruct (checkRateLimit (w_clock w) (rl_openai (w_client w))) as [ok r] eqn:E.
  destruct ok; [discriminate|reflexivity].
Qed.

Lemma callAnthropic_denied network messages model options w :
  key_missing (anthropicKey (w_client w)) = false ->
  fst (check_and_reserve (w_clock w) (rl_anthropic (w_client w))) = false ->
  callAnthropic network messages model options w =
    (set_client w (set_rl_anthropic (w_client w) (snd (check_and_reserve (w_clock w) (rl_anthropic (w_client w))))),
     Err "Anthropic rate limit exceeded").
Proof.
  intros H. unfold callAnthropic, check_and_reserve. cbn [bind get_world]. rewrite H.
  destruct (checkRateLimit (w_clock w) (rl_anthropic (w_client w))) as [ok r] eqn:E.
  destruct ok; [discriminate|reflexivity].
Qed.

(** C3. Check-and-reserve (lines 62-69 with the increment of lines 80/114):
    when [now] is past the reset time the window is first reset to count 0
    and reset time [now + 60000]; then the call is admitted and the count
    incremented iff [count < limit], and a denied call leaves the (reset)
    window as it is.  Both adapters apply exactly this to their own window,
    and a denied adapter call stops with the rate-limit error.  With limit 1
    a first call passes, an immediate second is denied without consuming
    quota, and a call after the window elapses passes again. *)
Theorem rate_limit_check_and_reserve :
  (forall now r,
     let r0 := if Z.gtb now (resetTime r)
               then {| requests := 0; resetTime := now + 60000; limit := limit r |} else r in
     check_and_reserve now r =
       if Z.ltb (requests r0) (limit r0) then (true, set_requests r0 (requests r0 + 1))
       else (false, r0))
  /\ (forall network messages model options w,
        key_missing (openaiKey (w_client w)) = false ->
        rl_openai (w_client (fst (callOpenAI network messages model options w))) =
          snd (check_and_reserve (w_clock w) (rl_openai (w_client w)))
        /\ (fst (check_and_reserve (w_clock w) (rl_openai (w_client w))) = false ->
            snd (callOpenAI network messages model options w) = Err "OpenAI rate limit exceeded"))
  /\ (forall network messages model options w,
        key_missing (anthropicKey (w_client w)) = false ->
        rl_anthropic (w_client (fst (callAnthropic network messages model options w))) =
          snd (check_and_reserve (w_clock w) (rl_anthropic (w_client w)))
        /\ (fst (check_and_reserve (w_clock w) (rl_anthropic (w_client w))) = false ->
            snd (callAnthropic network messages model options w) = Err "Anthropic rate limit exceeded"))
  /\ (let '(r1, r2, count2, r3) := limit_one_run in
      succeeded r1 = true /\ r2 = Err "OpenAI rate limit exceeded" /\ count2 = 1
      /\ succeeded r3 = true).
Proof.
  split; [|split; [|split]].
  - intros now r. unfold check_and_reserve, checkRateLimit.
    destruct (Z.gtb now (resetTime r)); simpl;
      match goal with |- (if ?b then _ else _) = _ => destruct b end; reflexivity.
  - intros network messages model options w Hk. split.
    + now apply callOpenAI_window.
    + intros Hd. now rewrite (callOpenAI_denied network messages model options w Hk Hd).
  - intros network messages model options w Hk. split.
    + now apply callAnthropic_window.
    + intros Hd. now rewrite (callAnthropic_denied network messages model options w Hk Hd).
  - vm_compute. repeat split.
Qed.

Lemma rate_limit_check_and_reserve_witness :
  rl_openai (w_client (fst (callOpenAI net_ok [] JUndefined JUndefined (process (Some "sk-a") None 1))))
  = snd (check_and_reserve 1000 (window_of 0 1))
  /\ snd (callAnthropic net_ok [] JUndefined JUndefined
anthropic_spent)
     = Err "Anthropic rate limit exceeded".
Proof.
  destruct rate_limit_check_and_reserve as [_ [Ho [Ha _]]]. split.
  - apply (proj1 (Ho net_ok [] JUndefined JUndefined (process (Some "sk-a") None 1) eq_refl)).
  - apply (proj2 (Ha net_ok [] JUndefined JUndefined anthropic_spent eq_refl)). vm_compute. reflexivity.
Defined.

(** C9. A missing credential (unset or empty key) fails the adapter call with
    the configuration error before the rate-limit check and before any
    network call: the process state is returned untouched (rate-limit window,
    request counters, clock), whatever the network would have answered. *)
Theorem missing_key_short_circuits :
  forall network messages model options w,
    (key_missing (openaiKey (w_client w)) = true ->
     callOpenAI network messages model options w = (w, Err "OpenAI API key not configured"))
    /\ (key_missing (anthropicKey (w_client w)) = true ->
        callAnthropic network messages model options w = (w, Err "Anthropic API key not configured")).
Proof.
  intros network messages model options w; split; intros H.
  - unfold callOpenAI. cbn [bind get_world]. rewrite H. reflexivity.
  - unfold callAnthropic. cbn [bind get_world]. rewrite H. reflexivity.
Qed.

Lemma missing_key_short_circuits_witness :
  callOpenAI net_ok [] JUndefined JUndefined (process None (Some "") 60)
    = (process None (Some "") 60, Err "OpenAI API key not configured")
  /\ callAnthropic net_ok [] JUndefined JUndefined (process None (Some "") 60)
    = (process None (Some "") 60, Err "Anthropic API key not configured").
Proof.
  split.
  - apply (proj1 (missing_key_short_circuits net_ok [] JUndefined JUndefined _)). reflexivity.
  - apply (proj2 (missing_key_short_circuits net_ok [] JUndefined JUndefined _)). reflexivity.
Defined.

(** ** Request counters *)

(** C7 (counterexample). A ProviderA call answered with HTTP 500 fails, yet
    [metrics.openaiRequests] goes from 0 to 1. *)
Lemma failed_call_counted :
  let '(w', r) := callOpenAI net_down [] JUndefined JUndefined (process (Some "sk-a") None 60) in
  r = Err "OpenAI API error: 500 Internal Server Error"
  /\ openaiRequests (w_metrics w') = 1.
Proof. vm_compute. split; reflexivity. Qed.

(** C7 (amended). Each adapter increments its request counter by exactly one
    for every call that has a configured key and passes the rate-limit check,
    before the network request and whatever its outcome; a call stopped by a
    missing key or a denied check leaves it unchanged.  The counter therefore
    counts attempted requests, not completed successful ones. *)
Theorem request_counter_counts_admitted_calls :
  forall network messages model options w,
    openaiRequests (w_metrics (fst (callOpenAI network messages model options w))) =
      openaiRequests (w_metrics w) +
      (if key_missing (openaiKey (w_client w)) then 0
       else if fst (checkRateLimit (w_clock w) (rl_openai (w_client w))) then 1 else 0)
    /\ anthropicRequests (w_metrics (fst (callAnthropic network messages model options w))) =
      anthropicRequests (w_metrics w) +
      (if key_missing (anthropicKey (w_client w)) then 0
       else if fst (checkRateLimit (w_clock w) (rl_anthropic (w_client w))) then 1 else 0).
Proof.
  intros network messages model options w. split.
  - unfold callOpenAI. cbn [bind get_world].
    destruct (key_missing (openaiKey (w_client w))); [simpl; lia|].
    destruct (checkRateLimit (w_clock w) (rl_openai (w_client w))) as [ok r].
    destruct ok; [|simpl; lia].
    cbn [bind modify negb fst snd].
    match goal with |- openaiRequests (w_metrics (fst (?m ?w0))) = _ =>
      assert (Hk : keeps w_metrics m) by keeps_tac; rewrite (Hk w0) end.
    simpl. lia.
  - unfold callAnthropic. cbn [bind get_world].
    destruct (key_missing (anthropicKey (w_client w))); [simpl; lia|].
    destruct (checkRateLimit (w_clock w) (rl_anthropic (w_client w))) as [ok r].
    destruct ok; [|simpl; lia].
    cbn [bind modify negb fst snd].
    match goal with |- anthropicRequests (w_metrics (fst (?m ?w0))) = _ =>
      assert (Hk : keeps w_metrics m) by keeps_tac; rewrite (Hk w0) end.
    simpl. lia.
Qed.

(** ** Agent memory *)

Lemma callAPI_keeps_agents network provider messages model options :
  keeps w_agents (callAPI network provider messages model options).
Proof. unfold callAPI, callOpenAI, callAnthropic. keeps_tac. Qed.

Lemma executeAgent_effect network agentId message context w :
  let '(w', res) := executeAgent network agentId message context w in
  (w_agents w' = w_agents w /\ succeeded res = false)
  \/ exists key a am, find_agent (w_agents w) agentId = Some (key, a) /\
       w_agents w' = map_set (w_agents w) key
                       (set_memory a (memory_cap (ag_memory a ++ [user_message message; am]))).
Proof.
  unfold executeAgent, bind, lift, ret, throw, modify, get_world.
  destruct (find_agent (w_agents w) agentId) as [[key a]|] eqn:Hf;
    [|simpl; left; split; reflexivity].
  destruct (get_field (default_param context (JObj [])) "options") as [opts|];
    [|simpl; left; split; reflexivity].
  pose proof (callAPI_keeps_agents network (ag_provider a)
     (system_message (ag_instructions a) :: ag_memory a ++ [user_message message])
     (ag_model a) (js_or opts (JObj [])) w) as Hk.
  destruct (callAPI _ _ _ _ _ w) as [w1 [resp|e]]; simpl in Hk;
    [|simpl; left; split; [congruence|reflexivity]].
  destruct (get_field resp "choices") as [ch|];
    [|simpl; left; split; [congruence|reflexivity]].
  destruct (get_first ch) as [c0|];
    [|simpl; left; split; [congruence|reflexivity]].
  destruct (get_field c0 "message") as [am|];
    [|simpl; left; split; [congruence|reflexivity]].
  destruct (get_field am "content"); [destruct (get_field resp "usage")|];
    simpl; right; exists key, a, am; rewrite Hk; split; reflexivity.
Qed.

Lemma executeAgent_call_fails network agentId message context w key a opts w1 e :
  find_agent (w_agents w) agentId = Some (key, a) ->
  get_field (default_param context (JObj [])) "options" = Some opts ->
  callAPI network (ag_provider a)
    (system_message (ag_instructions a) :: ag_memory a ++ [user_message message])
    (ag_model a) (js_or opts (JObj [])) w = (w1, Err e) ->
  executeAgent network agentId message context w = (w1, Err e).
Proof.
  intros Hf Ho Hc. unfold executeAgent, bind, lift, ret, throw, modify, get_world.
  rewrite Hf, Ho, Hc. reflexivity.
Qed.

Lemma assoc_map_set_same (m : list (string * agent)) k v :
  assoc k (map_set m k v) = Some v.
Proof.
  induction m as [|[k' v'] r IH]; simpl.
  - rewrite String.eqb_refl. reflexivity.
  - destruct (String.eqb k k') eqn:E; simpl; rewrite E; [reflexivity|exact IH].
Qed.

Lemma in_map_set (m : list (string * agent)) k v k' a :
  In (k', a) (map_set m k v) -> In (k', a) m \/ a = v.
Proof.
  induction m as [|[k0 v0] r IH]; simpl.
  - intros [H|[]]. inversion H; auto.
  - destruct (String.eqb k k0); simpl.
    + intros [H|H]; [inversion H; auto|auto].
    + intros [H|H]; [auto|]. destruct (IH H); auto.
Qed.

Lemma slice_last_app_long {A} n (p q : list A) :
  (n <= length q)%nat -> slice_last n (p ++ q) = slice_last n q.
Proof.
  intros H. unfold slice_last. rewrite length_app, skipn_app.
  rewrite skipn_all2 by lia. simpl. f_equal. lia.
Qed.

Lemma slice_last_slice_last_app {A} n (l x : list A) :
  slice_last n (slice_last n l ++ x) = slice_last n (l ++ x).
Proof.
  destruct (Nat.le_gt_cases n (length l)) as [H|H].
  - assert (E : firstn (length l - n) l ++ slice_last n l = l)
      by (unfold slice_last; apply firstn_skipn).
    rewrite <- E at 2. rewrite <- app_assoc, (slice_last_app_long n (firstn (length l - n) l)); [reflexivity|].
    rewrite length_app. unfold slice_last. rewrite length_skipn. lia.
  - assert (E : slice_last n l = l)
      by (unfold slice_last; replace (length l - n)%nat with 0%nat by lia; reflexivity).
    rewrite E. reflexivity.
Qed.

Lemma memory_cap_slice mem : memory_cap mem = slice_last memory_cap_size mem.
Proof.
  unfold memory_cap. destruct (Nat.ltb memory_cap_size (length mem)) eqn:E; [reflexivity|].
  apply Nat.ltb_ge in E. unfold slice_last. replace (length mem - memory_cap_size)%nat with 0%nat by lia.
  reflexivity.
Qed.

Lemma memory_cap_length mem : (length (memory_cap mem) <= memory_cap_size)%nat.
Proof.
  rewrite memory_cap_slice. unfold slice_last. rewrite length_skipn. lia.
Qed.

Lemma slice_last_short {A} n (l : list A) : (length l <= n)%nat -> slice_last n l = l.
Proof. intros H. unfold slice_last. replace (length l - n)%nat with 0%nat by lia. reflexivity. Qed.

Lemma memory_cap_fold (ps : list (json * json)) m0 :
  (length m0 <= memory_cap_size)%nat ->
  fold_left (fun m p => memory_cap (m ++ [fst p; snd p])) ps m0 =
  slice_last memory_cap_size (m0 ++ flat_map (fun p => [fst p; snd p]) ps).
Proof.
  revert m0. induction ps as [|[u r] ps IH]; intros m0 Hm; simpl.
  - rewrite app_nil_r, slice_last_short; [reflexivity|exact Hm].
  - rewrite IH by apply memory_cap_length.
    rewrite memory_cap_slice, slice_last_slice_last_app, <- app_assoc. reflexivity.
Qed.

Lemma executeAgent_mem_bounded network agentId message context :
  preserves mem_bounded (executeAgent network agentId message context).
Proof.
  intros w Hw. pose proof (executeAgent_effect network agentId message context w) as He.
  destruct (executeAgent network agentId message context w) as [w' res]. simpl.
  destruct He as [[Ha _]|(key & a & am & _ & Ha)]; intros k b Hin; rewrite Ha in Hin.
  - exact (Hw k b Hin).
  - destruct (in_map_set _ _ _ _ _ Hin) as [H|H].
    + exact (Hw k b H).
    + subst b. apply memory_cap_length.
Qed.

Lemma createAgent_mem_bounded fresh config : preserves mem_bounded (createAgent fresh config).
Proof.
  intros w Hw. unfold createAgent, bind, lift, ret, throw, modify, get_world.
  destruct (get_field config "name"); [|exact Hw].
  destruct (get_field config "role"); [|exact Hw].
  destruct (get_field config "provider"); [|exact Hw].
  destruct (get_field config "model"); [|exact Hw].
  destruct (get_field config "instructions"); [|exact Hw].
  simpl. intros k b Hin. destruct (in_map_set _ _ _ _ _ Hin) as [H|H].
  - exact (Hw k b H).
  - subst b. simpl. unfold memory_cap_size. lia.
Qed.

Lemma preserves_bind {A B} P (m : M A) (k : A -> M B) :
  preserves P m -> (forall a, preserves P (k a)) -> preserves P (bind m k).
Proof.
  intros Hm Hk w Hw. unfold bind. specialize (Hm w Hw).
  destruct (m w) as [w' [a|e]]; simpl in *; [apply Hk|]; exact Hm.
Qed.

Lemma preserves_ret {A} P (a : A) : preserves P (ret a).
Proof. intros w Hw; exact Hw. Qed.

Section Invariant.

Variable P : world -> Prop.
Variable exec : json -> json -> json -> M exec_result.
Hypothesis exec_preserves : forall a b c, preserves P (exec a b c).

Lemma agent_turn_preserves n i id cur conv : preserves P (agent_turn exec n i id cur conv).
Proof.
  intros w Hw. unfold agent_turn. pose proof (exec_preserves id (JStr cur) (JObj []) w Hw) as H.
  destruct (exec id (JStr cur) (JObj []) w) as [w1 [r|e]]; simpl in *;
    [destruct (digest _ _)|]; exact H.
Qed.

Lemma run_round_preserves n i ids : forall cur conv, preserves P (run_round exec n i ids cur conv).
Proof.
  induction ids as [|id r IH]; intros cur conv; simpl.
  - apply preserves_ret.
  - apply preserves_bind; [apply agent_turn_preserves|intros; apply IH].
Qed.

Lemma run_iterations_preserves n ids k : forall i cur conv,
  preserves P (run_iterations exec n ids i k cur conv).
Proof.
  induction k as [|k IH]; intros i cur conv; simpl.
  - apply preserves_ret.
  - apply preserves_bind; [apply run_round_preserves|intros; apply IH].
Qed.

Lemma collaborate_preserves fresh ids goal k : preserves P (collaborate_with exec fresh ids goal k).
Proof.
  unfold collaborate_with.
  apply preserves_bind; [intros w Hw; exact Hw|intros w0].
  apply preserves_bind; [destruct (js_to_string goal); intros w Hw; exact Hw|intros g].
  apply preserves_bind; [apply run_iterations_preserves|intros p].
  apply preserves_bind; [intros w Hw; exact Hw|intros w1]. apply preserves_ret.
Qed.

End Invariant.

(** C2. [executeAgent] updates memory atomically.  When the provider call
    fails, [executeAgent] fails with the same error in the same state and the
    agent Map, hence every agent's memory, is exactly as before.  When
    [executeAgent] succeeds, the provider call succeeded with a reply
    [response], and the agent's memory is its old memory followed by the
    user message and then [response.choices[0].message], both together, cut
    to the cap; that message's [content] is the returned [response].  The
    final state is the provider call's state with only that memory update.
    Whatever happens, the Map is either unchanged or has exactly that
    update: never only one of the two messages. *)
Theorem executeAgent_memory_atomic :
  forall network agentId message context w key a,
    find_agent (w_agents w) agentId = Some (key, a) ->
    (forall opts w1 e,
       get_field (default_param context (JObj [])) "options" = Some opts ->
       callAPI network (ag_provider a)
         (system_message (ag_instructions a) :: ag_memory a ++ [user_message message])
         (ag_model a) (js_or opts (JObj [])) w = (w1, Err e) ->
       executeAgent network agentId message context w = (w1, Err e)
       /\ w_agents w1 = w_agents w)
    /\ (forall w' r,
          executeAgent network agentId message context w = (w', Ok r) ->
          exists opts w1 response am,
            get_field (default_param context (JObj [])) "options" = Some opts
            /\ callAPI network (ag_provider a)
                 (system_message (ag_instructions a) :: ag_memory a ++ [user_message message])
                 (ag_model a) (js_or opts (JObj [])) w = (w1, Ok response)
            /\ reply_message response = Some am
            /\ get_field am "content" = Some (r_response r)
            /\ w_agents w1 = w_agents w
            /\ w' = set_agents w1 (map_set (w_agents w) key
                      (set_memory a (memory_cap (ag_memory a ++ [user_message message; am]))))
            /\ agent_memory w' key = Some (memory_cap (ag_memory a ++ [user_message message; am])))
    /\ (w_agents (fst (executeAgent network agentId message context w)) = w_agents w
        \/ exists am,
             w_agents (fst (executeAgent network agentId message context w)) =
             map_set (w_agents w) key
               (set_memory a (memory_cap (ag_memory a ++ [user_message message; am])))).
Proof.
  intros network agentId message context w key a Hf.
  pose proof (executeAgent_effect network agentId message context w) as He.
  split; [|split].
  - intros opts w1 e Ho Hc.
    pose proof (callAPI_keeps_agents network (ag_provider a)
      (system_message (ag_instructions a) :: ag_memory a ++ [user_message message])
      (ag_model a) (js_or opts (JObj [])) w) as Hk. rewrite Hc in Hk.
    split; [exact (executeAgent_call_fails network agentId message context w key a opts w1 e Hf Ho Hc)|exact Hk].
  - intros w' r Hx. clear He.
    unfold executeAgent, bind, lift, ret, throw, modify, get_world in Hx.
    rewrite Hf in Hx. cbv beta iota zeta in Hx.
    destruct (get_field (default_param context (JObj [])) "options") as [opts|] eqn:Ho;
      cbv beta iota zeta in Hx; [|discriminate].
    pose proof (callAPI_keeps_agents network (ag_provider a)
      (system_message (ag_instructions a) :: ag_memory a ++ [user_message message])
      (ag_model a) (js_or opts (JObj [])) w) as Hk.
    destruct (callAPI network (ag_provider a)
      (system_message (ag_instructions a) :: ag_memory a ++ [user_message message])
      (ag_model a) (js_or opts (JObj [])) w) as [w1 [resp|e]] eqn:Hc;
      cbv beta iota zeta in Hx; [|discriminate]. simpl in Hk.
    destruct (get_field resp "choices") as [ch|] eqn:Hch; cbv beta iota zeta in Hx; [|discriminate].
    destruct (get_first ch) as [c0|] eqn:Hc0; cbv beta iota zeta in Hx; [|discriminate].
    destruct (get_field c0 "message") as [am|] eqn:Ham; cbv beta iota zeta in Hx; [|discriminate].
    destruct (get_field am "content") as [content|] eqn:Hct; cbv beta iota zeta in Hx; [|discriminate].
    destruct (get_field resp "usage") as [usage|] eqn:Hu; cbv beta iota zeta in Hx; [|discriminate].
    injection Hx as <- <-.
    exists opts, w1, resp, am. split; [reflexivity|]. split; [exact Hc|].
    split; [unfold reply_message; rewrite Hch, Hc0; exact Ham|].
    split; [exact Hct|]. split; [exact Hk|]. rewrite Hk. split; [reflexivity|].
    unfold agent_memory. simpl. rewrite assoc_map_set_same. reflexivity.
  - destruct (executeAgent network agentId message context w) as [w' res]. simpl.
    destruct He as [[Ha _]|(key' & a' & am & Hf' & Ha)]; [left; exact Ha|].
    rewrite Hf in Hf'. injection Hf' as <- <-. right. exists am. exact Ha.
Qed.

Lemma executeAgent_memory_atomic_witness :
  (executeAgent net_ok (JStr "a2") (JStr "hi") JUndefined trio
    = (fst (callAPI net_ok (JStr "anthropic")
              [system_message (JStr "You are a helpful AI assistant."); user_message (JStr "hi")]
              (JStr "claude-3-5-sonnet-20241022") (JObj []) trio),
       Err "Anthropic API key not configured")
   /\ w_agents (fst (callAPI net_ok (JStr "anthropic")
              [system_message (JStr "You are a helpful AI assistant."); user_message (JStr "hi")]
              (JStr "claude-3-5-sonnet-20241022") (JObj []) trio)) = w_agents trio)
  /\ exists w' r, executeAgent net_ok (JStr "a1") (JStr "hi") JUndefined trio = (w', Ok r)
     /\ exists opts w1 response am,
          get_field (default_param JUndefined (JObj [])) "options" = Some opts
          /\ callAPI net_ok (JStr "openai")
               [system_message (JStr "You are a helpful AI assistant."); user_message (JStr "hi")]
               (JStr "gpt-4") (js_or opts (JObj [])) trio = (w1, Ok response)
          /\ reply_message response = Some am
          /\ get_field am "content" = Some (r_response r)
          /\ w_agents w1 = w_agents trio
          /\ w' = set_agents w1 (map_set (w_agents trio) "a1"
                    (set_memory agent_a (memory_cap ([] ++ [user_message (JStr "hi"); am]))))
          /\ agent_memory w' "a1" = Some (memory_cap ([] ++ [user_message (JStr "hi"); am])).
Proof.
  split.
  - destruct (executeAgent_memory_atomic net_ok (JStr "a2") (JStr "hi") JUndefined trio "a2" agent_b)
      as [H _]; [vm_compute; reflexivity|].
    apply (H (JUndefined)); [reflexivity|vm_compute; reflexivity].
  - destruct (executeAgent_memory_atomic net_ok (JStr "a1") (JStr "hi") JUndefined trio "a1" agent_a)
      as [_ [H _]]; [vm_compute; reflexivity|].
    destruct (executeAgent net_ok (JStr "a1") (JStr "hi") JUndefined trio) as [w' [r|e]] eqn:E.
    + exists w', r. split; [reflexivity|]. apply H. first [exact E | reflexivity].
    + vm_compute in E. discriminate.
Defined.

(** C4. Memory stays bounded and is evicted oldest first.  Every mutation
    (agent creation, an execution, a whole collaboration) keeps all agents'
    memories at most [MEMORY_CAP = 20] long; the cap keeps the newest 20
    entries; a run of successful exchanges starting from a bounded memory
    leaves exactly the last 20 of all messages in order; and an agent that
    completes 15 exchanges ends with the 20 most recent messages. *)
Theorem memory_bounded_fifo :
  (forall network agentId message context w,
     mem_bounded w -> mem_bounded (fst (executeAgent network agentId message context w)))
  /\ (forall fresh config w, mem_bounded w -> mem_bounded (fst (createAgent fresh config w)))
  /\ (forall network fresh ids goal k w,
        mem_bounded w -> mem_bounded (fst (collaborateAgents network fresh ids goal k w)))
  /\ (forall mem, memory_cap mem = slice_last memory_cap_size mem
                  /\ (length (memory_cap mem) <= memory_cap_size)%nat)
  /\ (forall (ps : list (json * json)) m0,
        (length m0 <= memory_cap_size)%nat ->
        fold_left (fun m p => memory_cap (m ++ [fst p; snd p])) ps m0 =
        slice_last memory_cap_size (m0 ++ flat_map (fun p => [fst p; snd p]) ps))
  /\ agent_memory (fst (exchanges net_ok (JStr "a1") 0 15 duo)) "a1"
       = Some (slice_last memory_cap_size (appended_messages 15))
  /\ length (slice_last memory_cap_size (appended_messages 15)) = 20%nat.
Proof.
  split; [|split; [|split; [|split; [|split; [|split]]]]].
  - intros network agentId message context w Hw. exact (executeAgent_mem_bounded network agentId message context w Hw).
  - intros fresh config w Hw. exact (createAgent_mem_bounded fresh config w Hw).
  - intros network fresh ids goal k w Hw. unfold collaborateAgents.
    apply (collaborate_preserves mem_bounded (executeAgent network)); [|exact Hw].
    intros a b c. apply executeAgent_mem_bounded.
  - intros mem. split; [apply memory_cap_slice|apply memory_cap_length].
  - intros ps m0 Hm. exact (memory_cap_fold ps m0 Hm).
  - vm_compute. reflexivity.
  - vm_compute. reflexivity.
Qed.

Lemma memory_bounded_fifo_witness :
  mem_bounded (fst (executeAgent net_ok (JStr "a1") (JStr "hi") JUndefined (process (Some "sk-a") None 60)))
  /\ mem_bounded (fst (createAgent "a1" (named (JStr "A")) (process (Some "sk-a") None 60)))
  /\ mem_bounded (fst (collaborateAgents net_ok "c1" [JStr "a1"] (JStr "g") 2 (process (Some "sk-a") None 60)))
  /\ fold_left (fun m p => memory_cap (m ++ [fst p; snd p])) [(JStr "u", JStr "r")] []
     = slice_last memory_cap_size ([] ++ flat_map (fun p => [fst p; snd p]) [(JStr "u", JStr "r")]).
Proof.
  destruct memory_bounded_fifo as [He [Hc [Hl [_ [Hf _]]]]].
  assert (H0 : mem_bounded (process (Some "sk-a") None 60)) by (intros k a []).
  split; [|split; [|split]].
  - apply He. exact H0.
  - apply Hc. exact H0.
  - apply Hl. exact H0.
  - apply Hf. simpl. unfold memory_cap_size. lia.
Defined.

(** ** Collaboration *)

Lemma all_some_map {A B} (f : A -> option B) (l : list A) :
  (forall x, In x l -> f x <> None) -> exists ys, all_some (map f l) = Some ys.
Proof.
  induction l as [|x r IH]; intros H; simpl.
  - eexists; reflexivity.
  - destruct (f x) as [y|] eqn:E; [|exfalso; exact (H x (or_introl eq_refl) E)].
    destruct IH as [ys Hys]; [intros z Hz; apply H; right; exact Hz|].
    rewrite Hys. eexists; reflexivity.
Qed.

Lemma in_slice_last {A} n (l : list A) x : In x (slice_last n l) -> In x l.
Proof.
  unfold slice_last. intros H. rewrite <- (firstn_skipn (length l - n) l).
  apply in_or_app. right. exact H.
Qed.

Lemma digest_printable n conv : conv_printable conv -> exists d, digest n conv = Some d.
Proof.
  intros H. unfold digest.
  destruct (all_some_map turn_line (slice_last n conv)) as [ls Hls].
  - intros t Ht. apply H. exact (in_slice_last n conv t Ht).
  - rewrite Hls. eexists; reflexivity.
Qed.

Lemma conv_printable_app conv extra :
  conv_printable conv -> conv_printable extra -> conv_printable (conv ++ extra).
Proof.
  intros H1 H2 t Ht. apply in_app_or in Ht. destruct Ht; [apply H1|apply H2]; assumption.
Qed.

Lemma err_line i t id e : turn_line (TurnErr i t id e) <> None.
Proof. discriminate. Qed.

Section Rounds.

Variable exec : json -> json -> json -> M exec_result.

(** A turn on a failing [executeAgent] records one error record with its
    message and keeps the prompt. *)
Lemma agent_turn_failed n i id cur conv w w1 e :
  exec id (JStr cur) (JObj []) w = (w1, Err e) ->
  agent_turn exec n i id cur conv w = (w1, Ok (cur, conv ++ [TurnErr (S i) (w_clock w1) id e])).
Proof. intros H. unfold agent_turn. rewrite H. reflexivity. Qed.

Lemma agent_turn_succeeded n i id cur conv w w1 r d :
  exec id (JStr cur) (JObj []) w = (w1, Ok r) ->
  digest n (conv ++ [TurnOk (S i) (w_clock w1) r]) = Some d ->
  agent_turn exec n i id cur conv w = (w1, Ok (d, conv ++ [TurnOk (S i) (w_clock w1) r])).
Proof. intros H Hd. unfold agent_turn. rewrite H, Hd. reflexivity. Qed.

Lemma agent_turn_shape n i id cur conv w :
  exists cur' extra, snd (agent_turn exec n i id cur conv w) = Ok (cur', conv ++ extra)
                     /\ (1 <= length extra <= 2)%nat.
Proof.
  unfold agent_turn. destruct (exec id (JStr cur) (JObj []) w) as [w1 [r|e]].
  - destruct (digest n _); simpl.
    + eexists _, _; split; [reflexivity|simpl; lia].
    + eexists _, _; split; [rewrite <- app_assoc; reflexivity|simpl; lia].
  - eexists _, _; split; [reflexivity|simpl; lia].
Qed.

Hypothesis exec_ok : exec_printable exec.

Lemma agent_turn_exact n i id cur conv w :
  conv_printable conv ->
  exists cur' t, snd (agent_turn exec n i id cur conv w) = Ok (cur', conv ++ [t])
                 /\ turn_line t <> None.
Proof.
  intros Hc. unfold agent_turn.
  destruct (exec id (JStr cur) (JObj []) w) as [w1 [r|e]] eqn:Ex.
  - destruct (exec_ok _ _ _ _ _ _ Ex) as [Hn Hr].
    assert (Ht : turn_line (TurnOk (S i) (w_clock w1) r) <> None).
    { unfold turn_line; simpl.
      destruct (js_to_string (r_name r)); [|contradiction].
      destruct (js_to_string (r_response r)); [discriminate|contradiction]. }
    destruct (digest_printable n (conv ++ [TurnOk (S i) (w_clock w1) r])) as [d Hd].
    + apply conv_printable_app; [exact Hc|]. intros t [<-|[]]. exact Ht.
    + rewrite Hd. eexists _, _; split; [reflexivity|exact Ht].
  - eexists _, _; split; [reflexivity|apply err_line].
Qed.

End Rounds.

Lemma run_round_bounds exec n i ids : forall cur conv w,
  exists cur' conv', snd (run_round exec n i ids cur conv w) = Ok (cur', conv')
    /\ (length conv + length ids <= length conv' <= length conv + 2 * length ids)%nat.
Proof.
  induction ids as [|id r IH]; intros cur conv w; simpl.
  - eexists _, _; split; [reflexivity|lia].
  - unfold bind. destruct (agent_turn_shape exec n i id cur conv w) as (cur1 & extra & Ht & Hl).
    destruct (agent_turn exec n i id cur conv w) as [w1 res]. simpl in Ht. subst res.
    destruct (IH cur1 (conv ++ extra) w1) as (cur' & conv' & Hr & Hl').
    exists cur', conv'. split; [exact Hr|]. rewrite length_app in Hl'. lia.
Qed.

Lemma run_round_exact exec n i ids : exec_printable exec -> forall cur conv w,
  conv_printable conv ->
  exists cur' conv', snd (run_round exec n i ids cur conv w) = Ok (cur', conv')
    /\ length conv' = (length conv + length ids)%nat /\ conv_printable conv'.
Proof.
  intros Hx. induction ids as [|id r IH]; intros cur conv w Hc; simpl.
  - eexists _, _; split; [reflexivity|split; [lia|exact Hc]].
  - unfold bind. destruct (agent_turn_exact exec Hx n i id cur conv w Hc) as (cur1 & t & Ht & Hl).
    destruct (agent_turn exec n i id cur conv w) as [w1 res]. simpl in Ht. subst res.
    destruct (IH cur1 (conv ++ [t]) w1) as (cur' & conv' & Hr & Hl' & Hc').
    + apply conv_printable_app; [exact Hc|]. intros t' [<-|[]]. exact Hl.
    + exists cur', conv'. split; [exact Hr|]. split; [|exact Hc']. rewrite Hl', length_app. simpl. lia.
Qed.

Lemma run_iterations_bounds exec n ids k : forall i cur conv w,
  exists cur' conv', snd (run_iterations exec n ids i k cur conv w) = Ok (cur', conv')
    /\ (length conv + k * length ids <= length conv' <= length conv + 2 * (k * length ids))%nat.
Proof.
  induction k as [|k IH]; intros i cur conv w; simpl.
  - eexists _, _; split; [reflexivity|lia].
  - unfold bind. destruct (run_round_bounds exec n i ids cur conv w) as (cur1 & conv1 & Hr & Hl).
    destruct (run_round exec n i ids cur conv w) as [w1 res]. simpl in Hr. subst res.
    destruct (IH (S i) cur1 conv1 w1) as (cur' & conv' & Hr' & Hl').
    exists cur', conv'. split; [exact Hr'|]. lia.
Qed.

Lemma run_iterations_exact exec n ids k : exec_printable exec -> forall i cur conv w,
  conv_printable conv ->
  exists cur' conv', snd (run_iterations exec n ids i k cur conv w) = Ok (cur', conv')
    /\ length conv' = (length conv + k * length ids)%nat.
Proof.
  intros Hx. induction k as [|k IH]; intros i cur conv w Hc; simpl.
  - eexists _, _; split; [reflexivity|lia].
  - unfold bind. destruct (run_round_exact exec n i ids Hx cur conv w Hc) as (cur1 & conv1 & Hr & Hl & Hc1).
    destruct (run_round exec n i ids cur conv w) as [w1 res]. simpl in Hr. subst res.
    destruct (IH (S i) cur1 conv1 w1 Hc1) as (cur' & conv' & Hr' & Hl').
    exists cur', conv'. split; [exact Hr'|]. lia.
Qed.

Lemma collaborate_unfold exec fresh ids goal k w g :
  js_to_string goal = Some g ->
  collaborate_with exec fresh ids goal k w =
  match run_iterations exec (length ids) ids 0 k (initial_prompt g) [] w with
  | (w1, Ok p) => (w1, Ok {| c_id := fresh; c_goal := goal; c_agents := ids;
                             c_conversation := snd p; c_started := w_clock w;
                             c_completed := Some (w_clock w1) |})
  | (w1, Err e) => (w1, Err e)
  end.
Proof.
  intros Hg. unfold collaborate_with, bind, get_world, lift. rewrite Hg. simpl.
  destruct (run_iterations exec (length ids) ids 0 k (initial_prompt g) [] w) as [w1 [p|e]]; reflexivity.
Qed.

Lemma run_iterations_nil exec k : forall i cur conv w,
  run_iterations exec 0 [] i k cur conv w = (w, Ok (cur, conv)).
Proof.
  induction k as [|k IH]; intros i cur conv w; simpl; [reflexivity|].
  unfold bind. simpl. apply IH.
Qed.




(** C10 (counterexample).  With no participants the goal is still put into a
    template literal; a goal [{"toString": 0}] makes that throw. *)
Lemma empty_participants_goal_throws :
  snd (collaborateAgents net_ok "c1" [] (JObj [("toString", JNum "0")]) 3 duo) = Err type_error.
Proof. vm_compute. reflexivity. Qed.

(** C10 (amended).  For every goal that converts to a string and every
    iteration count, [collaborateAgents] with an empty participant list
    does not error: it leaves the state unchanged and returns a run with
    zero turn records whose completion timestamp is set. *)
Theorem collaborate_empty_participants :
  forall exec fresh goal k w g,
    js_to_string goal = Some g ->
    collaborate_with exec fresh [] goal k w
    = (w, Ok {| c_id := fresh; c_goal := goal; c_agents := []; c_conversation := [];
                c_started := w_clock w; c_completed := Some (w_clock w) |}).
Proof.
  intros exec fresh goal k w g Hg. rewrite (collaborate_unfold exec fresh [] goal k w g Hg).
  simpl length. rewrite run_iterations_nil. reflexivity.
Qed.

Lemma collaborate_empty_participants_witness :
  js_to_string (JStr "g") = Some "g"
  /\ collaborateAgents net_ok "c1" [] (JStr "g") 3 duo
     = (duo, Ok {| c_id := "c1"; c_goal := JStr "g"; c_agents := []; c_conversation := [];
                   c_started := w_clock duo; c_completed := Some (w_clock duo) |}).
Proof.
  split; [reflexivity|].
  exact (collaborate_empty_participants (executeAgent net_ok) "c1" (JStr "g") 3 duo "g" eq_refl).
Defined.

(** C5 (counterexample).  In [duo_b], agent [a2] fails (no ProviderB key):
    after round 1 the prompt is not the digest of the last two records, it
    is still the digest made after [a1]'s turn. *)
Lemma failed_turn_keeps_prompt :
  match snd (run_round (executeAgent net_ok) 2 0 [JStr "a1"; JStr "a2"] goal_prompt [] duo_b) with
  | Ok (cur, conv) => length conv = 2%nat /\ digest 2 conv <> Some cur
  | Err _ => False
  end.
Proof. vm_compute. split; [reflexivity | discriminate]. Qed.

Lemma prompt_scan_snoc n rest : forall cur pre t,
  prompt_scan n cur pre (rest ++ [t]) = prompt_step n (prompt_scan n cur pre rest) (pre ++ rest) t.
Proof.
  induction rest as [|x r IH]; intros cur pre t; simpl.
  - rewrite app_nil_r. reflexivity.
  - rewrite IH, <- app_assoc. reflexivity.
Qed.

Lemma prompt_after_snoc n init conv t :
  prompt_after n init (conv ++ [t]) = prompt_step n (prompt_after n init conv) conv t.
Proof. unfold prompt_after. rewrite prompt_scan_snoc. reflexivity. Qed.

Section PromptState.

Variable exec : json -> json -> json -> M exec_result.
Variable init : string.

Lemma agent_turn_prompt n i id cur conv w :
  cur = prompt_after n init conv ->
  exists cur' conv', snd (agent_turn exec n i id cur conv w) = Ok (cur', conv')
                   /\ cur' = prompt_after n init conv'.
Proof.
  intros Hc. unfold agent_turn.
  destruct (exec id (JStr cur) (JObj []) w) as [w1 [r|e]].
  - destruct (digest n (conv ++ [TurnOk (S i) (w_clock w1) r])) as [d|] eqn:Hd; simpl.
    + eexists _, _. split; [reflexivity|].
      rewrite prompt_after_snoc. simpl. rewrite Hd. reflexivity.
    + eexists _, _. split; [reflexivity|].
      rewrite !prompt_after_snoc. simpl. rewrite Hd. exact Hc.
  - eexists _, _. split; [reflexivity|]. rewrite prompt_after_snoc. exact Hc.
Qed.

Lemma run_round_prompt n i ids : forall cur conv w,
  cur = prompt_after n init conv ->
  exists cur' conv', snd (run_round exec n i ids cur conv w) = Ok (cur', conv')
                   /\ cur' = prompt_after n init conv'.
Proof.
  induction ids as [|id r IH]; intros cur conv w Hc; simpl.
  - eexists _, _. split; [reflexivity|exact Hc].
  - unfold bind. destruct (agent_turn_prompt n i id cur conv w Hc) as (c1 & v1 & Ha & Hc1).
    destruct (agent_turn exec n i id cur conv w) as [w1 res]. simpl in Ha. subst res.
    apply IH. exact Hc1.
Qed.

Lemma run_iterations_prompt n ids k : forall i cur conv w,
  cur = prompt_after n init conv ->
  exists cur' conv', snd (run_iterations exec n ids i k cur conv w) = Ok (cur', conv')
                   /\ cur' = prompt_after n init conv'.
Proof.
  induction k as [|k IH]; intros i cur conv w Hc; simpl.
  - eexists _, _. split; [reflexivity|exact Hc].
  - unfold bind. destruct (run_round_prompt n i ids cur conv w Hc) as (c1 & v1 & Ha & Hc1).
    destruct (run_round exec n i ids cur conv w) as [w1 res]. simpl in Ha. subst res.
    apply IH. exact Hc1.
Qed.

End PromptState.

(** C5 (amended).  The prompt is re-derived only after a successful turn
    whose digest formats: it becomes the digest of the last [n] records of
    the conversation including the new one; a successful turn whose digest
    does not format adds its record and an error record and keeps the
    prompt; a failing turn keeps it too.  So each turn leaves the prompt
    [prompt_after n init] of the conversation so far.  In a collaboration
    [n] is the number of participant ids and the conversation is the whole
    conversation, whichever iterations produced it: the loop starts from
    the goal prompt and the empty conversation, and at its end the prompt
    is [prompt_after (length ids) (initial_prompt goal)] of the returned
    conversation.  With 2 agents, 2 iterations and every turn succeeding,
    agent [a1] receives in iteration 2 the digest of both round-1
    responses by name. *)
Theorem prompt_rederived_after_success :
  forall exec n i id cur conv w,
    (forall w1 r d,
        exec id (JStr cur) (JObj []) w = (w1, Ok r) ->
        digest n (conv ++ [TurnOk (S i) (w_clock w1) r]) = Some d ->
        agent_turn exec n i id cur conv w = (w1, Ok (d, conv ++ [TurnOk (S i) (w_clock w1) r])))
    /\ (forall w1 r,
        exec id (JStr cur) (JObj []) w = (w1, Ok r) ->
        digest n (conv ++ [TurnOk (S i) (w_clock w1) r]) = None ->
        agent_turn exec n i id cur conv w
        = (w1, Ok (cur, (conv ++ [TurnOk (S i) (w_clock w1) r])
                        ++ [TurnErr (S i) (w_clock w1) id type_error])))
    /\ (forall w1 e,
        exec id (JStr cur) (JObj []) w = (w1, Err e) ->
        agent_turn exec n i id cur conv w = (w1, Ok (cur, conv ++ [TurnErr (S i) (w_clock w1) id e])))
    /\ (forall init, cur = prompt_after n init conv ->
        exists cur' conv', snd (agent_turn exec n i id cur conv w) = Ok (cur', conv')
                         /\ cur' = prompt_after n init conv')
    /\ (forall fresh ids goal k g,
        js_to_string goal = Some g ->
        exists c cur',
          snd (collaborate_with exec fresh ids goal k w) = Ok c
          /\ snd (run_iterations exec (length ids) ids 0 k (initial_prompt g) [] w)
             = Ok (cur', c_conversation c)
          /\ cur' = prompt_after (length ids) (initial_prompt g) (c_conversation c))
    /\ agent_memory (fst (collaborateAgents net_ok "c1" [JStr "a1"; JStr "a2"] (JStr "g") 2 duo)) "a1"
       = Some [user_message (JStr goal_prompt); assistant_text "reply 1000";
               user_message (JStr round_one_digest); assistant_text "reply 1002"].
Proof.
  intros exec n i id cur conv w. split; [|split; [|split; [|split; [|split]]]].
  - intros w1 r d H Hd. exact (agent_turn_succeeded exec n i id cur conv w w1 r d H Hd).
  - intros w1 r H Hd. unfold agent_turn. rewrite H, Hd. reflexivity.
  - intros w1 e H. exact (agent_turn_failed exec n i id cur conv w w1 e H).
  - intros init Hc. exact (agent_turn_prompt exec init n i id cur conv w Hc).
  - intros fresh ids goal k g Hg. rewrite (collaborate_unfold exec fresh ids goal k w g Hg).
    destruct (run_iterations_prompt exec (initial_prompt g) (length ids) ids k 0
                (initial_prompt g) [] w eq_refl) as (cur' & conv' & Hr & Hc).
    destruct (run_iterations exec (length ids) ids 0 k (initial_prompt g) [] w) as [w1 res].
    simpl in Hr. subst res. simpl.
    eexists _, cur'. split; [reflexivity|]. simpl. split; [reflexivity|exact Hc].
  - vm_compute. reflexivity.
Qed.

(** C6 (counterexample).  [createAgent] stores an unknown provider as given. *)
Lemma createAgent_keeps_unknown_provider :
  match snd (createAgent "a9" gemini_config duo) with
  | Ok a => ag_provider a = JStr "gemini"
  | Err _ => False
  end.
Proof. vm_compute. reflexivity. Qed.

(** C6 (amended).  [createAgent] never validates the provider: for every
    configuration object, the agent is created with [config.provider] when
    that value is truthy and ["openai"] only otherwise.  An agent whose
    provider is neither ["openai"] nor ["anthropic"] is only rejected when
    it is executed: [callAPI] throws ["Unsupported provider: ..."], counts
    the error and the agent's memory is left as it was. *)
Theorem createAgent_provider_unvalidated :
  (forall fresh config w p,
      get_field config "provider" = Some p ->
      exists a, createAgent fresh config w = (set_agents w (map_set (w_agents w) fresh a), Ok a)
                /\ ag_provider a = js_or p (JStr "openai"))
  /\ (forall network w agentId message context key a opts s,
      find_agent (w_agents w) agentId = Some (key, a) ->
      get_field (default_param context (JObj [])) "options" = Some opts ->
      is_str (ag_provider a) "openai" = false ->
      is_str (ag_provider a) "anthropic" = false ->
      js_to_string (ag_provider a) = Some s ->
      executeAgent network agentId message context w
      = (set_metrics w (bump_errors (w_metrics w)),
         Err (String.append "Unsupported provider: " s))).
Proof.
  split.
  - intros fresh config w p Hp.
    destruct config; try discriminate; simpl in Hp; injection Hp as <-;
      (eexists; split; [unfold createAgent, bind, lift, ret, get_world, modify; simpl;
                         reflexivity | reflexivity]).
  - intros network w agentId message context key a opts s Hf Ho Ho1 Ho2 Hs.
    apply (executeAgent_call_fails network agentId message context w key a opts); auto.
    unfold callAPI, catch, bind, lift, throw, modify. rewrite Ho1, Ho2, Hs. reflexivity.
Qed.

Lemma createAgent_provider_unvalidated_witness :
  (exists a, createAgent "a9" gemini_config duo
             = (set_agents duo (map_set (w_agents duo) "a9" a), Ok a)
             /\ ag_provider a = js_or (JStr "gemini") (JStr "openai"))
  /\ executeAgent net_ok (JStr "a9") (JStr "hi") JUndefined (fst (createAgent "a9" gemini_config duo))
     = (set_metrics (fst (createAgent "a9" gemini_config duo))
                    (bump_errors (w_metrics (fst (createAgent "a9" gemini_config duo)))),
        Err "Unsupported provider: gemini").
Proof.
  split.
  - exact (proj1 createAgent_provider_unvalidated "a9" gemini_config duo (JStr "gemini") eq_refl).
  - exact (proj2 createAgent_provider_unvalidated net_ok (fst (createAgent "a9" gemini_config duo))
             (JStr "a9") (JStr "hi") JUndefined "a9"
             {| ag_id := "a9"; ag_name := JStr "Agent"; ag_role := JStr "Assistant";
                ag_provider := JStr "gemini"; ag_model := JStr "gpt-4";
                ag_instructions := JStr "You are a helpful AI assistant."; ag_memory := [];
                ag_created := 1000 |}
             JUndefined "gemini" eq_refl eq_refl eq_refl eq_refl eq_refl).
Defined.

Lemma assoc_obj_set k fs k' v :
  assoc k (obj_set fs k' v) = if String.eqb k k' then Some v else assoc k fs.
Proof.
  induction fs as [|[a b] r IH]; simpl; [reflexivity|].
  destruct (String.eqb k' a) eqn:E1.
  - apply String.eqb_eq in E1. subst a. simpl.
    destruct (String.eqb k k'); reflexivity.
  - simpl. rewrite IH.
    destruct (String.eqb k a) eqn:E2; [|reflexivity].
    apply String.eqb_eq in E2. subst a.
    destruct (String.eqb k k') eqn:E3; [|reflexivity].
    apply String.eqb_eq in E3. subst k'. rewrite String.eqb_refl in E1. discriminate.
Qed.

Lemma assoc_obj_spread k opts : forall base,
  assoc k opts = None -> assoc k (obj_spread base (JObj opts)) = assoc k base.
Proof.
  unfold obj_spread; simpl.
  induction opts as [|[a b] r IH]; intros base H; simpl in *; [reflexivity|].
  destruct (String.eqb k a) eqn:E; [discriminate|].
  rewrite IH by exact H. rewrite assoc_obj_set, E. reflexivity.
Qed.

Lemma role_filter_system msgs :
  js_filter role_is_system (map msg_json msgs) = Some (map msg_json (filter is_system_msg msgs)).
Proof.
  induction msgs as [|m r IH]; simpl; [reflexivity|].
  rewrite IH. unfold is_system_msg. destruct (String.eqb (fst m) "system"); reflexivity.
Qed.

Lemma role_filter_conversation msgs :
  js_filter (fun m => option_map negb (role_is_system m)) (map msg_json msgs)
  = Some (map msg_json (filter (fun m => negb (is_system_msg m)) msgs)).
Proof.
  induction msgs as [|m r IH]; simpl; [reflexivity|].
  rewrite IH. unfold is_system_msg. destruct (String.eqb (fst m) "system"); reflexivity.
Qed.

Lemma js_join_strings sep (l : list string) :
  js_join sep (map JStr l) = Some (join sep l).
Proof.
  unfold js_join. rewrite map_map. simpl.
  assert (H : all_some (map (fun x => Some x) l) = Some l)
    by (induction l as [|x r IH]; simpl; [reflexivity | rewrite IH; reflexivity]).
  rewrite H. reflexivity.
Qed.

(** C8 (counterexample).  [...options] is spread last into the request
    body, so an option named [system] replaces the joined system messages. *)
Lemma options_override_system :
  option_map (fun b => get_field b "system")
    (anthropic_request_body (JStr "m") (map msg_json three_msgs) (JObj [("system", JStr "override")]))
  = Some (Some (JStr "override")).
Proof. vm_compute. reflexivity. Qed.

(** C8 (amended).  For every list of messages with string roles and
    contents and every options object without own [system] or [messages]
    keys, the ProviderB body carries as [system] the contents of the
    system-role messages joined with newlines and as [messages] the other
    messages in their original order; a ProviderB reply whose first content
    block carries a text is normalized to exactly the ProviderA reply with
    that text and the reply's [usage], whatever other blocks and fields the
    reply has; and for one system and two alternating
    user/assistant messages both adapters answer with the same reply. *)
Theorem anthropic_adapter_normalizes :
  forall model msgs opts,
    assoc "system" opts = None ->
    assoc "messages" opts = None ->
    (exists body,
        anthropic_request_body model (map msg_json msgs) (JObj opts) = Some body
        /\ get_field body "system" = Some (JStr (join nl (map snd (filter is_system_msg msgs))))
        /\ get_field body "messages"
           = Some (JArr (map msg_json (filter (fun m => negb (is_system_msg m)) msgs))))
    /\ (forall fs bfs rest text,
          assoc "content" fs = Some (JArr (JObj bfs :: rest)) ->
          assoc "text" bfs = Some text ->
          normalize_anthropic (JObj fs) = Some (openai_reply text (prop fs "usage")))
    /\ snd (callAnthropic net_ok (map msg_json three_msgs) JUndefined JUndefined both_keys)
       = snd (callOpenAI net_ok (map msg_json three_msgs) JUndefined JUndefined both_keys).
Proof.
  intros model msgs opts Hs Hm. split; [|split].
  - unfold anthropic_request_body.
    rewrite role_filter_system, role_filter_conversation, map_map.
    simpl get_field at 1 2.
    assert (Hc : all_some (map (fun m => get_field (msg_json m) "content") (filter is_system_msg msgs))
                 = Some (map JStr (map snd (filter is_system_msg msgs)))).
    { generalize (filter is_system_msg msgs) as l.
      induction l as [|m r IH]; simpl in *; [reflexivity|]. rewrite IH. reflexivity. }
    rewrite Hc, js_join_strings.
    eexists. split; [reflexivity|]. simpl get_field.
    rewrite !assoc_obj_spread by assumption. split; reflexivity.
  - intros fs bfs rest text Hc Ht. unfold normalize_anthropic, get_field.
    rewrite Hc. simpl. rewrite Ht. reflexivity.
  - vm_compute. reflexivity.
Qed.

Lemma anthropic_adapter_normalizes_witness :
  assoc "system" ([] : list (string * json)) = None
  /\ assoc "messages" ([] : list (string * json)) = None
  /\ (exists body,
        anthropic_request_body (JStr "m") (map msg_json three_msgs) (JObj []) = Some body
        /\ get_field body "system" = Some (JStr (join nl (map snd (filter is_system_msg three_msgs))))
        /\ get_field body "messages"
           = Some (JArr (map msg_json (filter (fun m => negb (is_system_msg m)) three_msgs))))
  /\ normalize_anthropic (JObj two_block_reply) = Some (openai_reply (JStr "x") usage0).
Proof.
  split; [reflexivity|]. split; [reflexivity|]. split.
  - exact (proj1 (anthropic_adapter_normalizes (JStr "m") three_msgs [] eq_refl eq_refl)).
  - exact (proj1 (proj2 (anthropic_adapter_normalizes (JStr "m") three_msgs [] eq_refl eq_refl))
             two_block_reply [("type", JStr "text"); ("text", JStr "x")]
             [JObj [("type", JStr "text"); ("text", JStr "y")]] (JStr "x") eq_refl eq_refl).
Defined.

(** ** Rate windows stay within their limits *)

Lemma check_and_reserve_ok now r :
  window_ok r -> window_ok (snd (check_and_reserve now r)).
Proof.
  unfold window_ok, check_and_reserve, checkRateLimit. intros H.
  destruct (Z.gtb now (resetTime r)); simpl.
  - destruct (Z.ltb 0 (limit r)) eqn:E; simpl; [apply Z.ltb_lt in E|]; lia.
  - destruct (Z.ltb (requests r) (limit r)) eqn:E; simpl; [apply Z.ltb_lt in E|]; lia.
Qed.

Lemma preserves_throw {A} P msg : preserves P (@throw A msg).
Proof. intros w Hw; exact Hw. Qed.
Lemma preserves_lift {A} P (o : option A) : preserves P (lift o).
Proof. destruct o; intros w Hw; exact Hw. Qed.
Lemma preserves_get_world P : preserves P get_world.
Proof. intros w Hw; exact Hw. Qed.
Lemma preserves_modify P f : (forall w, P w -> P (f w)) -> preserves P (modify f).
Proof. intros H w Hw; exact (H w Hw). Qed.
Lemma preserves_catch {A} P (m : M A) h :
  preserves P m -> (forall e, preserves P (h e)) -> preserves P (catch m h).
Proof.
  intros Hm Hh w Hw. unfold catch. specialize (Hm w Hw).
  destruct (m w) as [w' [a|e]]; simpl in *; [exact Hm|apply Hh; exact Hm].
Qed.

Lemma callOpenAI_windows network messages model options :
  preserves windows_ok (callOpenAI network messages model options).
Proof.
  intros w [Ho Ha].
  destruct (key_missing (openaiKey (w_client w))) eqn:K.
  - unfold callOpenAI. cbn [bind get_world]. rewrite K. split; assumption.
  - assert (Hk : keeps (fun w => rl_anthropic (w_client w)) (callOpenAI network messages model options))
      by (unfold callOpenAI; keeps_tac).
    split.
    + rewrite (callOpenAI_window network messages model options w K).
      apply check_and_reserve_ok; exact Ho.
    + unfold keeps in Hk. rewrite Hk. exact Ha.
Qed.

Lemma callAnthropic_windows network messages model options :
  preserves windows_ok (callAnthropic network messages model options).
Proof.
  intros w [Ho Ha].
  destruct (key_missing (anthropicKey (w_client w))) eqn:K.
  - unfold callAnthropic. cbn [bind get_world]. rewrite K. split; assumption.
  - assert (Hk : keeps (fun w => rl_openai (w_client w)) (callAnthropic network messages model options))
      by (unfold callAnthropic; keeps_tac).
    split.
    + unfold keeps in Hk. rewrite Hk. exact Ho.
    + rewrite (callAnthropic_window network messages model options w K).
      apply check_and_reserve_ok; exact Ha.
Qed.

Lemma callAPI_windows network provider messages model options :
  preserves windows_ok (callAPI network provider messages model options).
Proof.
  unfold callAPI. apply preserves_catch.
  - destruct (is_str provider "openai"); [apply callOpenAI_windows|].
    destruct (is_str provider "anthropic"); [apply callAnthropic_windows|].
    apply preserves_bind; [apply preserves_lift|intros; apply preserves_throw].
  - intros e. apply preserves_bind; [apply preserves_modify; intros w Hw; exact Hw|].
    intros; apply preserves_throw.
Qed.

Lemma executeAgent_windows network agentId message context :
  preserves windows_ok (executeAgent network agentId message context).
Proof.
  unfold executeAgent. apply preserves_bind; [apply preserves_get_world|intros w0].
  destruct (find_agent (w_agents w0) agentId) as [[key a]|]; [|apply preserves_throw].
  repeat (apply preserves_bind;
          [first [apply preserves_lift | apply callAPI_windows
                 | apply preserves_modify; intros w Hw; exact Hw] | intros]).
  apply preserves_ret.
Qed.

(** X1.  A provider's request count never exceeds its limit (or 0 when the
    limit is negative): every [callAPI], every [executeAgent] and every
    collaboration keeps [requests <= max(limit, 0)] for both windows. *)
Theorem rate_windows_within_limit :
  forall network,
    (forall provider messages model options,
        preserves windows_ok (callAPI network provider messages model options))
    /\ (forall agentId message context,
        preserves windows_ok (executeAgent network agentId message context))
    /\ (forall fresh ids goal k,
        preserves windows_ok (collaborateAgents network fresh ids goal k)).
Proof.
  intros network. split; [|split].
  - apply callAPI_windows.
  - apply executeAgent_windows.
  - intros fresh ids goal k. unfold collaborateAgents.
    apply (collaborate_preserves windows_ok (executeAgent network)).
    apply executeAgent_windows.
Qed.

Lemma rate_windows_within_limit_witness :
  windows_ok trio
  /\ windows_ok (fst (collaborateAgents net_ok "c1" [JStr "a1"; JStr "a2"; JStr "a3"] (JStr "g") 2 trio)).
Proof.
  assert (H : windows_ok trio) by (split; vm_compute; congruence).
  split; [exact H|].
  exact (proj2 (proj2 (rate_windows_within_limit net_ok)) "c1" [JStr "a1"; JStr "a2"; JStr "a3"]
           (JStr "g") 2%nat trio H).
Defined.

(** ** The [errors] metric *)

Lemma callAPI_inner_keeps_errors network provider messages model options :
  keeps (fun w => errors (w_metrics w))
    (if is_str provider "openai" then callOpenAI network messages model options
     else if is_str provider "anthropic" then callAnthropic network messages model options
     else (p <- lift (js_to_string provider) ;;
           throw (String.append "Unsupported provider: " p))).
Proof. unfold callOpenAI, callAnthropic. keeps_tac. Qed.

Lemma callAPI_errors network provider messages model options w :
  errors (w_metrics (fst (callAPI network provider messages model options w)))
  = errors (w_metrics w)
    + (if succeeded (snd (callAPI network provider messages model options w)) then 0 else 1).
Proof.
  pose proof (callAPI_inner_keeps_errors network provider messages model
                (default_param options (JObj [])) w) as Hk.
  unfold callAPI, catch.
  destruct (if is_str provider "openai" then _ else _) as [w1 [a|e]] eqn:E;
    simpl in Hk |- *; rewrite Hk; lia.
Qed.

(** X2.  [metrics.errors] counts failed provider calls: a [callAPI] that
    fails adds exactly 1 and one that succeeds adds 0; an [executeAgent]
    adds at most 1, and only when it fails (it adds 0 when it fails before
    or after the provider call, e.g. for an unknown agent id or a reply
    without [choices]). *)
Theorem errors_count_failed_calls :
  forall network,
    (forall provider messages model options w,
        errors (w_metrics (fst (callAPI network provider messages model options w)))
        = errors (w_metrics w)
          + (if succeeded (snd (callAPI network provider messages model options w)) then 0 else 1))
    /\ (forall agentId message context w,
        errors (w_metrics (fst (executeAgent network agentId message context w))) = errors (w_metrics w)
        \/ (errors (w_metrics (fst (executeAgent network agentId message context w)))
              = errors (w_metrics w) + 1
            /\ succeeded (snd (executeAgent network agentId message context w)) = false)).
Proof.
  intros network. split; [apply callAPI_errors|].
  intros agentId message context w.
  unfold executeAgent, bind, lift, ret, throw, modify, get_world.
  destruct (find_agent (w_agents w) agentId) as [[key a]|] eqn:Hf; [|left; reflexivity].
  destruct (get_field (default_param context (JObj [])) "options") as [opts|]; [|left; reflexivity].
  pose proof (callAPI_errors network (ag_provider a)
     (system_message (ag_instructions a) :: ag_memory a ++ [user_message message])
     (ag_model a) (js_or opts (JObj [])) w) as Hc.
  destruct (callAPI _ _ _ _ _ w) as [w1 [resp|e]]; simpl in Hc |- *;
    [|right; split; [exact Hc|reflexivity]].
  left.
  destruct (get_field resp "choices") as [ch|]; [|simpl; lia].
  destruct (get_first ch) as [c0|]; [|simpl; lia].
  destruct (get_field c0 "message") as [am|]; [|simpl; lia].
  destruct (get_field am "content"); [destruct (get_field resp "usage")|]; simpl; lia.
Qed.

(** ** Request bodies: caller options are spread last *)

Lemma assoc_notin {A} k (l : list (string * A)) : ~ In k (map fst l) -> assoc k l = None.
Proof.
  induction l as [|[a b] r IH]; simpl; intros H; [reflexivity|].
  destruct (String.eqb k a) eqn:E.
  - apply String.eqb_eq in E. subst. exfalso. apply H. left. reflexivity.
  - apply IH. intros Hin. apply H. right. exact Hin.
Qed.

Lemma assoc_obj_spread_nodup k opts : forall base,
  NoDup (map fst opts) ->
  assoc k (obj_spread base (JObj opts))
  = match assoc k opts with Some v => Some v | None => assoc k base end.
Proof.
  unfold obj_spread; simpl.
  induction opts as [|[a b] r IH]; intros base Hnd; simpl in *; [reflexivity|].
  inversion Hnd as [|x y Hnotin Hnd']; subst.
  destruct (String.eqb k a) eqn:E.
  - apply String.eqb_eq in E. subst a.
    pose proof (assoc_obj_spread k r (obj_set base k b) (assoc_notin k r Hnotin)) as H.
    unfold obj_spread in H. simpl in H. rewrite H, assoc_obj_set, String.eqb_refl. reflexivity.
  - rewrite IH by exact Hnd'. rewrite assoc_obj_set, E. reflexivity.
Qed.

(** X3.  In both adapters the caller's options are spread after the
    computed fields of the request body: an own key of the options object
    ([model], [messages], [temperature], [max_tokens], and for ProviderB
    [system]) replaces the computed value, even when it is falsy, so
    [temperature: 0] is sent as 0.  [options.maxTokens] only feeds
    [max_tokens] through [|| 2000], so [maxTokens: 0] sends 2000. *)
Theorem request_body_options_precedence :
  forall model messages msgs opts,
    NoDup (map fst opts) ->
    (exists body,
        openai_request_body model messages (JObj opts) = Some body
        /\ get_field body "model" = Some (own_or opts "model" model)
        /\ get_field body "messages" = Some (own_or opts "messages" (JArr messages))
        /\ get_field body "temperature" = Some (own_or opts "temperature" (JNum "0.7"))
        /\ get_field body "max_tokens"
           = Some (own_or opts "max_tokens" (js_or (prop opts "maxTokens") (JNum "2000"))))
    /\ (exists body,
        anthropic_request_body model (map msg_json msgs) (JObj opts) = Some body
        /\ get_field body "model" = Some (own_or opts "model" model)
        /\ get_field body "max_tokens"
           = Some (own_or opts "max_tokens" (js_or (prop opts "maxTokens") (JNum "2000")))
        /\ get_field body "temperature" = Some (own_or opts "temperature" (JNum "0.7"))
        /\ get_field body "system"
           = Some (own_or opts "system" (JStr (join nl (map snd (filter is_system_msg msgs)))))
        /\ get_field body "messages"
           = Some (own_or opts "messages"
                     (JArr (map msg_json (filter (fun m => negb (is_system_msg m)) msgs))))).
Proof.
  intros model messages msgs opts Hnd. split.
  - unfold openai_request_body. simpl get_field at 1 2.
    eexists. split; [reflexivity|]. simpl get_field.
    rewrite !(assoc_obj_spread_nodup _ opts _ Hnd). simpl.
    unfold own_or, prop.
    destruct (assoc "model" opts); destruct (assoc "messages" opts);
      destruct (assoc "temperature" opts); destruct (assoc "max_tokens" opts);
      repeat split; reflexivity.
  - unfold anthropic_request_body.
    rewrite role_filter_system, role_filter_conversation, map_map.
    simpl get_field at 1 2.
    assert (Hc : all_some (map (fun m => get_field (msg_json m) "content") (filter is_system_msg msgs))
                 = Some (map JStr (map snd (filter is_system_msg msgs)))).
    { generalize (filter is_system_msg msgs) as l.
      induction l as [|m r IH]; simpl in *; [reflexivity|]. rewrite IH. reflexivity. }
    rewrite Hc, js_join_strings.
    eexists. split; [reflexivity|]. simpl get_field.
    rewrite !(assoc_obj_spread_nodup _ opts _ Hnd). simpl.
    unfold own_or, prop.
    destruct (assoc "model" opts); destruct (assoc "max_tokens" opts);
      destruct (assoc "temperature" opts); destruct (assoc "system" opts);
      destruct (assoc "messages" opts); repeat split; reflexivity.
Qed.

Lemma request_body_options_precedence_witness :
  NoDup (map fst [("temperature", JNum "0"); ("maxTokens", JNum "0")])
  /\ (exists body,
        openai_request_body (JStr "gpt-4") [] (JObj [("temperature", JNum "0"); ("maxTokens", JNum "0")])
          = Some body
        /\ get_field body "temperature" = Some (JNum "0")
        /\ get_field body "max_tokens" = Some (JNum "2000")).
Proof.
  assert (Hnd : NoDup (map fst [("temperature", JNum "0"); ("maxTokens", JNum "0")])).
  { simpl. constructor; [simpl; intros [H|[]]; discriminate|].
    constructor; [intros []|constructor]. }
  split; [exact Hnd|].
  destruct (proj1 (request_body_options_precedence (JStr "gpt-4") [] []
                     [("temperature", JNum "0"); ("maxTokens", JNum "0")] Hnd))
    as (body & Hb & _ & _ & Ht & Hm).
  exists body. split; [exact Hb|]. split; [exact Ht|exact Hm].
Defined.

(** ** HTTP routes *)

Lemma map_set_absent (m : list (string * agent)) k v :
  ~ In k (map fst m) -> map_set m k v = m ++ [(k, v)].
Proof.
  induction m as [|[a b] r IH]; simpl; intros H; [reflexivity|].
  destruct (String.eqb k a) eqn:E.
  - apply String.eqb_eq in E. subst. exfalso. apply H. left. reflexivity.
  - rewrite IH; [reflexivity|]. intros Hin. apply H. right. exact Hin.
Qed.

Lemma assoc_app_absent {A} (m : list (string * A)) k v :
  ~ In k (map fst m) -> assoc k (m ++ [(k, v)]) = Some v.
Proof.
  intros H. induction m as [|[a b] r IH]; simpl in *.
  - rewrite String.eqb_refl. reflexivity.
  - destruct (String.eqb k a) eqn:E.
    + apply String.eqb_eq in E. subst. exfalso. apply H. left. reflexivity.
    + apply IH. intros Hin. apply H. right. exact Hin.
Qed.

Lemma post_agents_handler fresh body w :
  (exists fs, body = JObj fs) \/ (exists l, body = JArr l) ->
  ~ In fresh (map fst (w_agents w)) ->
  exists a,
    post_agents fresh body w = (set_agents w (w_agents w ++ [(fresh, a)]), Ok (Respond200 a))
    /\ ag_id a = fresh /\ ag_memory a = [] /\ ag_created a = w_clock w
    /\ list_agents (set_agents w (w_agents w ++ [(fresh, a)])) = list_agents w ++ [a]
    /\ find_agent (w_agents w ++ [(fresh, a)]) (JStr fresh) = Some (fresh, a).
Proof.
  intros Hb Hn.
  assert (Hc : exists a, createAgent fresh body w = (set_agents w (map_set (w_agents w) fresh a), Ok a)
                         /\ ag_id a = fresh /\ ag_memory a = [] /\ ag_created a = w_clock w).
  { destruct Hb as [[fs ->]|[l ->]];
      (eexists; split; [unfold createAgent, bind, lift, ret, get_world, modify; simpl; reflexivity|];
       repeat split). }
  destruct Hc as (a & Hc & Hid & Hm & Ht).
  exists a. rewrite (map_set_absent _ _ _ Hn) in Hc.
  split; [unfold post_agents, route; rewrite Hc; reflexivity|].
  split; [exact Hid|]. split; [exact Hm|]. split; [exact Ht|]. split.
  - unfold list_agents. simpl. rewrite map_app. reflexivity.
  - unfold find_agent. rewrite (assoc_app_absent _ _ _ Hn). reflexivity.
Qed.

(** X4.  A [POST /api/agents] request that the global limiter lets through
    and whose body [express.json()] parses to an object or array never
    answers 400: [metrics.requests] goes up by one and the route answers
    with a new agent under the fresh id, with empty memory and created at
    the current time; [GET /api/agents] then lists it after all earlier
    agents, and [executeAgent] finds it by its id.  Nothing else in the
    state changes.  A request the limiter refuses gets its 429 message and
    changes nothing. *)
Theorem post_agents_registers :
  forall fresh body s,
    (exists fs, body = JObj fs) \/ (exists l, body = JArr l) ->
    ~ In fresh (map fst (w_agents (hs_world s))) ->
    (exists a,
      serve (Reached body) (post_agents fresh) s
        = ({| hs_world := set_agents (hs_world s) (w_agents (hs_world s) ++ [(fresh, a)]);
              hs_requests := hs_requests s + 1 |}, Ok (HttpRoute (Respond200 a)))
      /\ ag_id a = fresh /\ ag_memory a = [] /\ ag_created a = w_clock (hs_world s)
      /\ list_agents (set_agents (hs_world s) (w_agents (hs_world s) ++ [(fresh, a)]))
         = list_agents (hs_world s) ++ [a]
      /\ find_agent (w_agents (hs_world s) ++ [(fresh, a)]) (JStr fresh) = Some (fresh, a))
    /\ serve Limited (post_agents fresh) s = (s, Ok (HttpTooMany "Too many requests from this IP")).
Proof.
  intros fresh body s Hb Hn. split; [|reflexivity].
  destruct (post_agents_handler fresh body (hs_world s) Hb Hn) as (a & Hp & Hrest).
  exists a. split; [|exact Hrest].
  unfold serve. rewrite Hp. reflexivity.
Qed.

Lemma post_agents_registers_witness :
  ((exists fs, JObj [("name", JStr "C")] = JObj fs) \/ (exists l, JObj [("name", JStr "C")] = JArr l))
  /\ ~ In "a3" (map fst (w_agents duo))
  /\ (exists a,
      serve (Reached (JObj [("name", JStr "C")])) (post_agents "a3") {| hs_world := duo; hs_requests := 7 |}
        = ({| hs_world := set_agents duo (w_agents duo ++ [("a3", a)]); hs_requests := 7 + 1 |},
           Ok (HttpRoute (Respond200 a)))
      /\ ag_id a = "a3" /\ ag_memory a = [] /\ ag_created a = w_clock duo
      /\ list_agents (set_agents duo (w_agents duo ++ [("a3", a)])) = list_agents duo ++ [a]
      /\ find_agent (w_agents duo ++ [("a3", a)]) (JStr "a3") = Some ("a3", a))
  /\ serve Limited (post_agents "a3") {| hs_world := duo; hs_requests := 7 |}
     = ({| hs_world := duo; hs_requests := 7 |}, Ok (HttpTooMany "Too many requests from this IP")).
Proof.
  assert (Hb : (exists fs, JObj [("name", JStr "C")] = JObj fs)
               \/ (exists l, JObj [("name", JStr "C")] = JArr l)) by (left; eexists; reflexivity).
  assert (Hn : ~ In "a3" (map fst (w_agents duo))) by (vm_compute; intros [H|[H|[]]]; discriminate).
  split; [exact Hb|]. split; [exact Hn|].
  exact (post_agents_registers "a3" (JObj [("name", JStr "C")]) {| hs_world := duo; hs_requests := 7 |} Hb Hn).
Defined.

Lemma post_execute_handler network id body w :
  (exists fs, body = JObj fs) \/ (exists l, body = JArr l) ->
  (let '(w', r) := executeAgent network (JStr id) (match body with JObj fs => prop fs "message" | _ => JUndefined end)
                     (JObj [("options", match body with JObj fs => prop fs "options" | _ => JUndefined end)]) w in
   post_execute network id body w
   = (w', Ok (match r with Ok x => Respond200 x | Err e => Respond400 e end)))
  /\ (assoc id (w_agents w) = None ->
      post_execute network id body w = (w, Ok (Respond400 "Agent not found"))).
Proof.
  intros Hb.
  assert (Hm : forall k, get_field body k
                         = Some (match body with JObj fs => prop fs k | _ => JUndefined end)).
  { destruct Hb as [[fs ->]|[l ->]]; intros k; reflexivity. }
  split.
  - unfold post_execute, route. cbn [bind lift ret]. rewrite !Hm. cbn [bind lift ret].
    destruct (executeAgent _ _ _ _ w) as [w' [x|e]]; reflexivity.
  - intros Ha. unfold post_execute, route. cbn [bind lift ret]. rewrite !Hm. cbn [bind lift ret].
    unfold executeAgent, bind, get_world, throw. simpl. rewrite Ha. reflexivity.
Qed.

(** X5.  A [POST /api/agents/:id/execute] request that the global limiter
    lets through and whose body parses to an object or array is counted in
    [metrics.requests] and answered 200 with the result of [executeAgent]
    or 400 with its error message, leaving the state [executeAgent] leaves,
    with the body's [options] as the provider options.  For an id with no
    agent it answers 400 ["Agent not found"] and the request count is all
    that moves: no provider counter, rate window or memory changes. *)
Theorem post_execute_reports :
  forall network id body s,
    (exists fs, body = JObj fs) \/ (exists l, body = JArr l) ->
    (let '(w', r) := executeAgent network (JStr id)
                       (match body with JObj fs => prop fs "message" | _ => JUndefined end)
                       (JObj [("options", match body with JObj fs => prop fs "options" | _ => JUndefined end)])
                       (hs_world s) in
     serve (Reached body) (post_execute network id) s
     = ({| hs_world := w'; hs_requests := hs_requests s + 1 |},
        Ok (HttpRoute (match r with Ok x => Respond200 x | Err e => Respond400 e end))))
    /\ (assoc id (w_agents (hs_world s)) = None ->
        serve (Reached body) (post_execute network id) s
        = ({| hs_world := hs_world s; hs_requests := hs_requests s + 1 |},
           Ok (HttpRoute (Respond400 "Agent not found")))).
Proof.
  intros network id body s Hb.
  destruct (post_execute_handler network id body (hs_world s) Hb) as [H1 H2]. split.
  - unfold serve.
    destruct (executeAgent network (JStr id) _ _ (hs_world s)) as [w' r]. rewrite H1. reflexivity.
  - intros Ha. unfold serve. rewrite (H2 Ha). reflexivity.
Qed.

Lemma post_execute_reports_witness :
  ((exists fs, JObj [("message", JStr "hi")] = JObj fs) \/ (exists l, JObj [("message", JStr "hi")] = JArr l))
  /\ assoc "zz" (w_agents duo) = None
  /\ serve (Reached (JObj [("message", JStr "hi")])) (post_execute net_ok "zz")
       {| hs_world := duo; hs_requests := 7 |}
     = ({| hs_world := duo; hs_requests := 7 + 1 |}, Ok (HttpRoute (Respond400 "Agent not found"))).
Proof.
  assert (Hb : (exists fs, JObj [("message", JStr "hi")] = JObj fs)
               \/ (exists l, JObj [("message", JStr "hi")] = JArr l)) by (left; eexists; reflexivity).
  assert (Ha : assoc "zz" (w_agents duo) = None) by (vm_compute; reflexivity).
  split; [exact Hb|]. split; [exact Ha|].
  exact (proj2 (post_execute_reports net_ok "zz" (JObj [("message", JStr "hi")])
                  {| hs_world := duo; hs_requests := 7 |} Hb) Ha).
Defined.

(** ** WebSocket frames *)

Lemma ws_start_collaboration network C (collaborate : json -> json -> json -> M C) fs w :
  assoc "type" fs = Some (JStr "start_collaboration") ->
  ws_on_message network collaborate (Parsed (JObj fs)) w
  = match collaborate (prop fs "agentIds") (prop fs "goal") (js_or (prop fs "iterations") (JNum "3")) w with
    | (w', Ok c) => (w', Ok (WsCollaborationResult (prop fs "requestId") c (w_clock w')))
    | (w', Err e) => (w', Ok (WsError e (w_clock w')))
    end.
Proof.
  intros Ht. unfold ws_on_message, ws_dispatch, catch, bind, parse_data, lift, ret, get_world.
  unfold get_field. rewrite Ht. cbn. unfold prop, own_or.
  destruct (collaborate _ _ _ w) as [w' [c|e]]; reflexivity.
Qed.

(** X6.  An [execute_agent] frame is answered with one [agent_response]
    carrying the frame's [requestId] and the result of [executeAgent]
    (called with the frame's [agentId], [message] and [context || {}]), or
    with one [error] frame carrying the error message; the state is the
    one [executeAgent] leaves.  A [start_collaboration] frame is answered
    the same way from [collaborateAgents], called with the frame's
    [agentIds], [goal] and [iterations || 3]: the frame's [iterations] as
    it is when truthy, 3 when it is falsy (missing, 0, null, false or the
    empty string). *)
Theorem ws_requests_answered :
  forall network C (collaborate : json -> json -> json -> M C) fs w,
    (assoc "type" fs = Some (JStr "execute_agent") ->
     ws_on_message network collaborate (Parsed (JObj fs)) w
     = match executeAgent network (prop fs "agentId") (prop fs "message")
               (js_or (prop fs "context") (JObj [])) w with
       | (w', Ok r) => (w', Ok (WsAgentResponse (prop fs "requestId") r (w_clock w')))
       | (w', Err e) => (w', Ok (WsError e (w_clock w')))
       end)
    /\ (assoc "type" fs = Some (JStr "start_collaboration") ->
        truthy (prop fs "iterations") = true ->
        ws_on_message network collaborate (Parsed (JObj fs)) w
        = match collaborate (prop fs "agentIds") (prop fs "goal") (prop fs "iterations") w with
          | (w', Ok c) => (w', Ok (WsCollaborationResult (prop fs "requestId") c (w_clock w')))
          | (w', Err e) => (w', Ok (WsError e (w_clock w')))
          end)
    /\ (assoc "type" fs = Some (JStr "start_collaboration") ->
        truthy (prop fs "iterations") = false ->
        ws_on_message network collaborate (Parsed (JObj fs)) w
        = match collaborate (prop fs "agentIds") (prop fs "goal") (JNum "3") w with
          | (w', Ok c) => (w', Ok (WsCollaborationResult (prop fs "requestId") c (w_clock w')))
          | (w', Err e) => (w', Ok (WsError e (w_clock w')))
          end).
Proof.
  intros network C collaborate fs w. split; [|split].
  - intros Ht. unfold ws_on_message, ws_dispatch, catch, bind, parse_data, lift, ret, get_world.
    unfold get_field. rewrite Ht. cbn -[executeAgent].
    unfold prop, own_or.
    destruct (executeAgent _ _ _ _ w) as [w' [r|e]]; reflexivity.
  - intros Ht Hi. rewrite (ws_start_collaboration network C collaborate fs w Ht).
    unfold js_or. rewrite Hi. reflexivity.
  - intros Ht Hi. rewrite (ws_start_collaboration network C collaborate fs w Ht).
    unfold js_or. rewrite Hi. reflexivity.
Qed.

Lemma ws_requests_answered_witness :
  (assoc "type" [("type", JStr "execute_agent"); ("agentId", JStr "zz")] = Some (JStr "execute_agent")
   /\ ws_on_message net_ok (fun _ _ _ => ret tt)
        (Parsed (JObj [("type", JStr "execute_agent"); ("agentId", JStr "zz")])) duo
      = (duo, Ok (WsError "Agent not found" (w_clock duo))))
  /\ (assoc "type" [("type", JStr "start_collaboration"); ("iterations", JNum "5")]
        = Some (JStr "start_collaboration")
      /\ truthy (prop [("type", JStr "start_collaboration"); ("iterations", JNum "5")] "iterations") = true
      /\ ws_on_message net_ok (fun _ _ it => ret it)
           (Parsed (JObj [("type", JStr "start_collaboration"); ("iterations", JNum "5")])) duo
         = (duo, Ok (WsCollaborationResult JUndefined (JNum "5") (w_clock duo))))
  /\ (assoc "type" [("type", JStr "start_collaboration"); ("iterations", JNum "0")]
        = Some (JStr "start_collaboration")
      /\ truthy (prop [("type", JStr "start_collaboration"); ("iterations", JNum "0")] "iterations") = false
      /\ ws_on_message net_ok (fun _ _ it => ret it)
           (Parsed (JObj [("type", JStr "start_collaboration"); ("iterations", JNum "0")])) duo
         = (duo, Ok (WsCollaborationResult JUndefined (JNum "3") (w_clock duo)))).
Proof.
  split; [|split].
  - split; [reflexivity|].
    exact (proj1 (ws_requests_answered net_ok unit (fun _ _ _ => ret tt)
                    [("type", JStr "execute_agent"); ("agentId", JStr "zz")] duo) eq_refl).
  - split; [reflexivity|]. split; [reflexivity|].
    exact (proj1 (proj2 (ws_requests_answered net_ok json (fun _ _ it => ret it)
                    [("type", JStr "start_collaboration"); ("iterations", JNum "5")] duo))
             eq_refl eq_refl).
  - split; [reflexivity|]. split; [reflexivity|].
    exact (proj2 (proj2 (ws_requests_answered net_ok json (fun _ _ it => ret it)
                    [("type", JStr "start_collaboration"); ("iterations", JNum "0")] duo))
             eq_refl eq_refl).
Defined.

(** X7.  Every other frame gets one [error] frame and leaves the state as
    it was: a frame that is not valid JSON gets the parser's message, the
    frame [null] gets the TypeError of reading its [type], and a value whose
    [type] is none of ["ping"], ["execute_agent"], ["start_collaboration"]
    (including a missing [type], a number or an array) gets ["Unknown
    message type"].  A [ping] frame gets one [pong] and changes nothing. *)
Theorem ws_other_frames :
  forall network C (collaborate : json -> json -> json -> M C) w,
    (forall m, ws_on_message network collaborate (Unparsable m) w = (w, Ok (WsError m (w_clock w))))
    /\ ws_on_message network collaborate (Parsed JNull) w = (w, Ok (WsError type_error (w_clock w)))
    /\ (forall v, v <> JNull -> v <> JUndefined ->
        let ty := match v with JObj fs => prop fs "type" | _ => JUndefined end in
        is_str ty "ping" = false -> is_str ty "execute_agent" = false ->
        is_str ty "start_collaboration" = false ->
        ws_on_message network collaborate (Parsed v) w
        = (w, Ok (WsError "Unknown message type" (w_clock w))))
    /\ (forall fs, assoc "type" fs = Some (JStr "ping") ->
        ws_on_message network collaborate (Parsed (JObj fs)) w = (w, Ok (WsPong (w_clock w)))).
Proof.
  intros network C collaborate w. split; [|split; [|split]].
  - intros m. reflexivity.
  - reflexivity.
  - intros v Hn Hu ty H1 H2 H3.
    assert (Hg : get_field v "type" = Some ty).
    { subst ty. destruct v; try contradiction; reflexivity. }
    unfold ws_on_message, ws_dispatch, catch, bind, parse_data, lift, ret, get_world.
    rewrite Hg, H1, H2, H3. reflexivity.
  - intros fs Ht. unfold ws_on_message, ws_dispatch, catch, bind, parse_data, lift, ret, get_world.
    unfold get_field. rewrite Ht. reflexivity.
Qed.

Lemma ws_other_frames_witness :
  JArr [] <> JNull /\ JArr [] <> JUndefined
  /\ ws_on_message net_ok (fun _ _ _ => ret tt) (Parsed (JArr [])) duo
     = (duo, Ok (WsError "Unknown message type" (w_clock duo))).
Proof.
  split; [discriminate|]. split; [discriminate|].
  exact (proj1 (proj2 (proj2 (ws_other_frames net_ok unit (fun _ _ _ => ret tt) duo)))
           (JArr []) ltac:(discriminate) ltac:(discriminate) eq_refl eq_refl eq_refl).
Defined.

(** ** WebSocket sessions *)

Lemma map_put_in {A} (m : list (string * A)) k v k' v' :
  In (k', v') (map_put m k v) -> In (k', v') m \/ (k' = k /\ v' = v).
Proof.
  induction m as [|[a b] r IH]; simpl; intros H.
  - destruct H as [H|[]]. injection H as <- <-. right. split; reflexivity.
  - destruct (String.eqb k a) eqn:E.
    + destruct H as [H|H]; [|left; right; exact H].
      injection H as <- <-. apply String.eqb_eq in E. subst. right. split; reflexivity.
    + destruct H as [H|H]; [left; left; exact H|].
      destruct (IH H) as [H'|H']; [left; right; exact H'|right; exact H'].
Qed.

Lemma map_put_keys {A} (m : list (string * A)) k v :
  map fst (map_put m k v) = if existsb (String.eqb k) (map fst m) then map fst m else map fst m ++ [k].
Proof.
  induction m as [|[a b] r IH]; simpl; [reflexivity|].
  destruct (String.eqb k a) eqn:E; simpl.
  - apply String.eqb_eq in E. subst. reflexivity.
  - rewrite IH. destruct (existsb _ _); reflexivity.
Qed.

Lemma existsb_eqb_in k l : existsb (String.eqb k) l = false -> ~ In k l.
Proof.
  induction l as [|a r IH]; simpl; [intros _ []|].
  intros H. apply orb_false_iff in H. destruct H as [H1 H2].
  intros [H|H]; [subst; rewrite String.eqb_refl in H1; discriminate|exact (IH H2 H)].
Qed.

Lemma map_put_nodup {A} (m : list (string * A)) k v :
  NoDup (map fst m) -> NoDup (map fst (map_put m k v)).
Proof.
  intros H. rewrite map_put_keys. destruct (existsb (String.eqb k) (map fst m)) eqn:E; [exact H|].
  apply NoDup_app; [exact H|constructor; [intros []|constructor]|].
  intros x Hx [Hy|[]]. subst. exact (existsb_eqb_in _ _ E Hx).
Qed.

Lemma map_put_length {A} (m : list (string * A)) k v :
  (length (map_put m k v) <= S (length m))%nat.
Proof.
  induction m as [|[a b] r IH]; simpl; [lia|].
  destruct (String.eqb k a); simpl; lia.
Qed.

Lemma map_delete_in {A} (m : list (string * A)) k e : In e (map_delete k m) -> In e m.
Proof.
  induction m as [|[a b] r IH]; simpl; [tauto|].
  destruct (String.eqb k a); simpl; [tauto|]. intros [H|H]; [left; exact H|right; exact (IH H)].
Qed.

Lemma map_delete_filter {A} (m : list (string * A)) k :
  NoDup (map fst m) -> map_delete k m = filter (fun e => negb (String.eqb k (fst e))) m.
Proof.
  induction m as [|[a b] r IH]; simpl; intros H; [reflexivity|].
  inversion H as [|x y Hn Hr]; subst.
  destruct (String.eqb k a) eqn:E; simpl.
  - apply String.eqb_eq in E. subst a.
    symmetry. apply forallb_filter_id. apply forallb_forall. intros [c d] Hin. simpl.
    destruct (String.eqb k c) eqn:E'; [|reflexivity].
    apply String.eqb_eq in E'. subst. exfalso. apply Hn. apply (in_map fst _ _ Hin).
  - rewrite IH by exact Hr. reflexivity.
Qed.

Lemma nodup_map_fst_filter {A} (p : string * A -> bool) (m : list (string * A)) :
  NoDup (map fst m) -> NoDup (map fst (filter p m)).
Proof.
  induction m as [|e r IH]; simpl; intros H; [constructor|].
  inversion H as [|x y Hn Hr]; subst.
  destruct (p e); simpl; [|exact (IH Hr)].
  constructor; [|exact (IH Hr)].
  intros Hin. apply Hn. apply in_map_iff in Hin. destruct Hin as (e' & He & Hin).
  apply filter_In in Hin. rewrite <- He. apply in_map. apply Hin.
Qed.

Lemma map_delete_middle {A} (l1 l2 : list (string * A)) k v :
  ~ In k (map fst l1) -> map_delete k (l1 ++ (k, v) :: l2) = l1 ++ l2.
Proof.
  induction l1 as [|[a b] r IH]; simpl; intros H.
  - rewrite String.eqb_refl. reflexivity.
  - destruct (String.eqb k a) eqn:E.
    + apply String.eqb_eq in E. subst. exfalso. apply H. left. reflexivity.
    + rewrite IH; [reflexivity|]. intros Hin. apply H. right. exact Hin.
Qed.

Lemma cleanup_fold s now r : forall p T,
  NoDup (map fst (filter (fun e => negb (stale s now e)) p ++ r)) ->
  fold_left (fun acc e => if stale s now e then (map_delete (fst e) (fst acc), snd acc ++ [snd e])
                          else acc) r (filter (fun e => negb (stale s now e)) p ++ r, T)
  = (filter (fun e => negb (stale s now e)) p ++ filter (fun e => negb (stale s now e)) r,
     T ++ map snd (filter (stale s now) r)).
Proof.
  induction r as [|e r IH]; intros p T Hnd; simpl.
  - rewrite !app_nil_r. reflexivity.
  - destruct (stale s now e) eqn:E; simpl.
    + destruct e as [k ref]. simpl.
      rewrite map_app in Hnd. simpl in Hnd.
      rewrite map_delete_middle by (intros Hin; apply (NoDup_remove_2 _ _ _ Hnd);
                                     apply in_or_app; left; exact Hin).
      assert (Hp : filter (fun e => negb (stale s now e)) (p ++ [(k, ref)])
                   = filter (fun e => negb (stale s now e)) p)
        by (rewrite filter_app; simpl; rewrite E; simpl; apply app_nil_r).
      rewrite <- Hp. rewrite IH.
      * rewrite Hp, <- app_assoc. reflexivity.
      * rewrite Hp, map_app. exact (NoDup_remove_1 _ _ _ Hnd).
    + assert (Hp : filter (fun e => negb (stale s now e)) (p ++ [e])
                   = filter (fun e => negb (stale s now e)) p ++ [e])
        by (rewrite filter_app; simpl; rewrite E; reflexivity).
      replace (filter (fun e => negb (stale s now e)) p ++ e :: r)
        with (filter (fun e => negb (stale s now e)) (p ++ [e]) ++ r)
        by (rewrite Hp, <- app_assoc; reflexivity).
      rewrite IH.
      * rewrite Hp, <- app_assoc. reflexivity.
      * rewrite Hp, <- app_assoc. exact Hnd.
Qed.

Lemma ws_cleanup_filter now s :
  NoDup (map fst (ws_sessions s)) ->
  ws_cleanup now s
  = ({| ws_sessions := filter (fun e => negb (stale s now e)) (ws_sessions s);
        ws_heap := ws_heap s;
        activeSessions := Z.of_nat (length (filter (fun e => negb (stale s now e)) (ws_sessions s)));
        totalSessions := totalSessions s |},
     map snd (filter (stale s now) (ws_sessions s))).
Proof.
  intros Hnd. unfold ws_cleanup.
  pose proof (cleanup_fold s now (ws_sessions s) [] [] Hnd) as H. simpl in H.
  rewrite H. reflexivity.
Qed.

Lemma filter_length_le {A} (p : A -> bool) l : (length (filter p l) <= length l)%nat.
Proof. induction l as [|x r IH]; simpl; [lia|]. destruct (p x); simpl; lia. Qed.

Lemma map_delete_length {A} (m : list (string * A)) k : (length (map_delete k m) <= length m)%nat.
Proof. induction m as [|[a b] r IH]; simpl; [lia|]. destruct (String.eqb k a); simpl; lia. Qed.

Lemma map_delete_nodup {A} (m : list (string * A)) k :
  NoDup (map fst m) -> NoDup (map fst (map_delete k m)).
Proof. intros H. rewrite map_delete_filter by exact H. apply nodup_map_fst_filter. exact H. Qed.

Lemma list_update_length {A} (l : list A) n f : length (list_update l n f) = length l.
Proof. revert n. induction l as [|x r IH]; intros [|n]; simpl; auto. Qed.

Lemma ws_step_consistent now e s : ws_consistent s -> ws_consistent (ws_step now e s).
Proof.
  intros (Ha & Ht & Hnd & Hr).
  destruct e as [id ip|ref|id|id|]; unfold ws_consistent;
    cbn [ws_step fst ws_connect ws_touch ws_close ws_error
         ws_sessions ws_heap activeSessions totalSessions].
  - pose proof (map_put_length (ws_sessions s) id (length (ws_heap s))).
    split; [reflexivity|]. split; [lia|]. split; [apply map_put_nodup; exact Hnd|].
    intros k ref Hin. rewrite length_app. simpl.
    destruct (map_put_in _ _ _ _ _ Hin) as [H'|[_ ->]]; [specialize (Hr k ref H'); lia|lia].
  - split; [exact Ha|]. split; [exact Ht|]. split; [exact Hnd|].
    intros k r Hin. rewrite list_update_length. exact (Hr k r Hin).
  - pose proof (map_delete_length (ws_sessions s) id).
    split; [reflexivity|]. split; [lia|]. split; [apply map_delete_nodup; exact Hnd|].
    intros k r Hin. exact (Hr k r (map_delete_in _ _ _ Hin)).
  - pose proof (map_delete_length (ws_sessions s) id).
    split; [reflexivity|]. split; [lia|]. split; [apply map_delete_nodup; exact Hnd|].
    intros k r Hin. exact (Hr k r (map_delete_in _ _ _ Hin)).
  - rewrite (ws_cleanup_filter now s Hnd).
    cbn [fst ws_sessions ws_heap activeSessions totalSessions].
    pose proof (filter_length_le (fun e => negb (stale s now e)) (ws_sessions s)).
    split; [reflexivity|]. split; [lia|]. split; [apply nodup_map_fst_filter; exact Hnd|].
    intros k r Hin. apply filter_In in Hin. exact (Hr k r (proj1 Hin)).
Qed.

(** X8.  The session table stays consistent under every WebSocket event
    (connection, message, close, error, cleanup): [metrics.activeSessions]
    equals the number of open sessions, which never exceeds
    [metrics.totalSessions]; session ids are unique in the Map; every entry
    refers to a session object.  So it holds after any sequence of events
    from the server start. *)
Theorem ws_sessions_consistent :
  (forall now e s, ws_consistent s -> ws_consistent (ws_step now e s))
  /\ (forall trace, ws_consistent (ws_run trace ws_init)).
Proof.
  split; [apply ws_step_consistent|].
  intros trace. unfold ws_run.
  assert (H0 : ws_consistent ws_init).
  { split; [reflexivity|]. split; [simpl; lia|]. split; [constructor|]. intros k r []. }
  revert H0. generalize ws_init. induction trace as [|te r IH]; intros s Hs; simpl; [exact Hs|].
  apply IH. apply ws_step_consistent. exact Hs.
Qed.

Lemma ws_sessions_consistent_witness :
  ws_consistent two_sessions /\ ws_consistent (ws_step 2000000 EvCleanup two_sessions).
Proof.
  split.
  - exact (proj2 ws_sessions_consistent _).
  - apply (proj1 ws_sessions_consistent). exact (proj2 ws_sessions_consistent _).
Defined.

(** X9.  The cleanup interval terminates and removes exactly the sessions
    idle for more than 30 minutes ([now - lastActivity > 1800000]), keeps
    the others in their order, and sets [activeSessions] to the number
    kept; every session left has been active within the last 30 minutes. *)
Theorem ws_cleanup_removes_idle :
  forall now s,
    NoDup (map fst (ws_sessions s)) ->
    ws_sessions (fst (ws_cleanup now s)) = filter (fun e => negb (stale s now e)) (ws_sessions s)
    /\ snd (ws_cleanup now s) = map snd (filter (stale s now) (ws_sessions s))
    /\ activeSessions (fst (ws_cleanup now s)) = Z.of_nat (length (ws_sessions (fst (ws_cleanup now s))))
    /\ (forall k ref sess, In (k, ref) (ws_sessions (fst (ws_cleanup now s))) ->
        nth_error (ws_heap s) ref = Some sess -> now - s_lastActivity sess <= session_timeout).
Proof.
  intros now s Hnd. rewrite (ws_cleanup_filter now s Hnd). cbn [fst snd ws_sessions activeSessions].
  split; [reflexivity|]. split; [reflexivity|]. split; [reflexivity|].
  intros k ref sess Hin Hs. apply filter_In in Hin. destruct Hin as [_ Hk].
  unfold stale in Hk. simpl in Hk. rewrite Hs in Hk.
  destruct (Z.ltb session_timeout (now - s_lastActivity sess)) eqn:E; [discriminate|].
  apply Z.ltb_ge in E. exact E.
Qed.

Lemma ws_cleanup_removes_idle_witness :
  NoDup (map fst (ws_sessions two_sessions))
  /\ ws_sessions (fst (ws_cleanup 2000000 two_sessions))
     = filter (fun e => negb (stale two_sessions 2000000 e)) (ws_sessions two_sessions)
  /\ ws_sessions (fst (ws_cleanup 2000000 two_sessions)) = [("s2", 1%nat)]
  /\ snd (ws_cleanup 2000000 two_sessions) = [0%nat].
Proof.
  assert (Hnd : NoDup (map fst (ws_sessions two_sessions)))
    by (vm_compute; constructor; [intros [H|[]]; discriminate|constructor; [intros []|constructor]]).
  split; [exact Hnd|]. split; [exact (proj1 (ws_cleanup_removes_idle 2000000 two_sessions Hnd))|].
  split; vm_compute; reflexivity.
Defined.

(** X10.  Closing a connection (its [close] or its [error] event) removes
    exactly the Map entry of its session id; closing again changes nothing,
    so the [close] event that follows the [terminate()] of a cleaned-up
    session leaves the state as the cleanup left it. *)
Theorem ws_close_removes_entry :
  forall id s,
    NoDup (map fst (ws_sessions s)) ->
    ws_sessions (ws_close id s) = filter (fun e => negb (String.eqb id (fst e))) (ws_sessions s)
    /\ ws_close id (ws_close id s) = ws_close id s
    /\ (forall now ref, In (id, ref) (ws_sessions s) -> stale s now (id, ref) = true ->
        ws_close id (fst (ws_cleanup now s)) = fst (ws_cleanup now s)).
Proof.
  intros id s Hnd.
  assert (Hf : ws_sessions (ws_close id s)
               = filter (fun e => negb (String.eqb id (fst e))) (ws_sessions s))
    by (unfold ws_close; simpl; apply map_delete_filter; exact Hnd).
  assert (Habs : forall m : list (string * nat), ~ In id (map fst m) -> map_delete id m = m).
  { induction m as [|[a b] r IH]; simpl; intros H; [reflexivity|].
    destruct (String.eqb id a) eqn:E.
    - apply String.eqb_eq in E. subst. exfalso. apply H. left. reflexivity.
    - rewrite IH; [reflexivity|]. intros Hin. apply H. right. exact Hin. }
  split; [exact Hf|]. split.
  - assert (Hn : ~ In id (map fst (ws_sessions (ws_close id s)))).
    { rewrite Hf. intros Hin. apply in_map_iff in Hin. destruct Hin as ([a b] & Ha & Hin).
      simpl in Ha. subst a. apply filter_In in Hin. rewrite String.eqb_refl in Hin.
      destruct Hin as [_ Hin]. discriminate. }
    unfold ws_close at 1. rewrite (Habs _ Hn). reflexivity.
  - intros now ref Hin Hst. rewrite (ws_cleanup_filter now s Hnd).
    unfold ws_close. cbn [ws_sessions ws_heap totalSessions].
    rewrite Habs; [reflexivity|].
    intros Hk. apply in_map_iff in Hk. destruct Hk as ([a b] & Ha & Hk).
    simpl in Ha. subst a. apply filter_In in Hk. destruct Hk as [Hk Hb].
    assert (b = ref).
    { clear -Hnd Hin Hk. induction (ws_sessions s) as [|[c d] r IH]; [destruct Hin|].
      simpl in Hnd. inversion Hnd as [|x y Hn Hr]; subst.
      destruct Hin as [H1|H1]; destruct Hk as [H2|H2].
      - congruence.
      - injection H1 as <- <-. exfalso. apply Hn. apply (in_map fst _ _ H2).
      - injection H2 as <- <-. exfalso. apply Hn. apply (in_map fst _ _ H1).
      - exact (IH Hr H1 H2). }
    subst b. rewrite Hst in Hb. discriminate.
Qed.

Lemma ws_close_removes_entry_witness :
  NoDup (map fst (ws_sessions two_sessions))
  /\ In ("s1", 0%nat) (ws_sessions two_sessions)
  /\ stale two_sessions 2000000 ("s1", 0%nat) = true
  /\ ws_close "s1" (fst (ws_cleanup 2000000 two_sessions)) = fst (ws_cleanup 2000000 two_sessions).
Proof.
  assert (Hnd : NoDup (map fst (ws_sessions two_sessions)))
    by (vm_compute; constructor; [intros [H|[]]; discriminate|constructor; [intros []|constructor]]).
  assert (Hin : In ("s1", 0%nat) (ws_sessions two_sessions)) by (vm_compute; left; reflexivity).
  assert (Hst : stale two_sessions 2000000 ("s1", 0%nat) = true) by (vm_compute; reflexivity).
  split; [exact Hnd|]. split; [exact Hin|]. split; [exact Hst|].
  exact (proj2 (proj2 (ws_close_removes_entry "s1" two_sessions Hnd)) 2000000 0%nat Hin Hst).
Defined.

Lemma nth_error_list_update_same {A} (l : list A) n f :
  nth_error (list_update l n f) n = option_map f (nth_error l n).
Proof. revert n. induction l as [|x r IH]; intros [|n]; simpl; auto. Qed.

(** X11.  A message on a connection stamps its session object with the
    current time and never adds or removes a Map entry (a message on a
    connection whose session was already cleaned up does not bring it
    back); a session that received a message at [t] survives every
    cleanup run at [now] with [now - t <= 30 minutes]. *)
Theorem ws_activity_defers_cleanup :
  forall s k ref t now,
    ws_consistent s ->
    In (k, ref) (ws_sessions s) ->
    now - t <= session_timeout ->
    ws_sessions (ws_touch ref t s) = ws_sessions s
    /\ option_map s_lastActivity (nth_error (ws_heap (ws_touch ref t s)) ref) = Some t
    /\ In (k, ref) (ws_sessions (fst (ws_cleanup now (ws_touch ref t s)))).
Proof.
  intros s k ref t now (_ & _ & Hnd & Hr) Hin Ht.
  destruct (nth_error (ws_heap s) ref) as [x|] eqn:Hx;
    [|apply nth_error_None in Hx; specialize (Hr k ref Hin); lia].
  assert (Hu : nth_error (ws_heap (ws_touch ref t s)) ref
               = Some {| s_id := s_id x; s_ip := s_ip x; s_created := s_created x;
                         s_lastActivity := t |})
    by (unfold ws_touch; simpl; rewrite nth_error_list_update_same, Hx; reflexivity).
  split; [reflexivity|]. split; [rewrite Hu; reflexivity|].
  rewrite (ws_cleanup_filter now (ws_touch ref t s) Hnd). simpl.
  apply filter_In. split; [exact Hin|].
  unfold stale. simpl snd. rewrite Hu. simpl.
  destruct (Z.ltb session_timeout (now - t)) eqn:E; [apply Z.ltb_lt in E; lia|reflexivity].
Qed.

Lemma ws_activity_defers_cleanup_witness :
  ws_consistent two_sessions
  /\ In ("s1", 0%nat) (ws_sessions two_sessions)
  /\ 2000000 - 1900000 <= session_timeout
  /\ In ("s1", 0%nat) (ws_sessions (fst (ws_cleanup 2000000 two_sessions_active))).
Proof.
  assert (Hc : ws_consistent two_sessions).
  { change two_sessions with (ws_step 1000000 (EvConnect "s2" (JStr "127.0.0.1"))
                               (ws_step 0 (EvConnect "s1" (JStr "127.0.0.1")) ws_init)).
    apply ws_step_consistent, ws_step_consistent.
    split; [reflexivity|]. split; [simpl; lia|]. split; [constructor|]. intros k r []. }
  assert (Hin : In ("s1", 0%nat) (ws_sessions two_sessions)) by (vm_compute; left; reflexivity).
  assert (Ht : 2000000 - 1900000 <= session_timeout) by (unfold session_timeout; lia).
  split; [exact Hc|]. split; [exact Hin|]. split; [exact Ht|].
  exact (proj2 (proj2 (ws_activity_defers_cleanup two_sessions "s1" 0%nat 1900000 2000000 Hc Hin Ht))).
Defined.

(** ** Collaboration records by iteration *)

Lemma agent_turn_block exec n i id cur conv w :
  exists cur' blk, snd (agent_turn exec n i id cur conv w) = Ok (cur', conv ++ blk)
    /\ (1 <= length blk <= 2)%nat /\ (forall t, In t blk -> turn_iteration t = S i).
Proof.
  unfold agent_turn.
  destruct (exec id (JStr cur) (JObj []) w) as [w1 [r|e]].
  - destruct (digest n (conv ++ [TurnOk (S i) (w_clock w1) r])) as [d|].
    + exists d, [TurnOk (S i) (w_clock w1) r]. split; [reflexivity|].
      split; [simpl; lia|]. intros t [<-|[]]. reflexivity.
    + exists cur, [TurnOk (S i) (w_clock w1) r; TurnErr (S i) (w_clock w1) id type_error].
      split; [rewrite <- app_assoc; reflexivity|].
      split; [simpl; lia|]. intros t [<-|[<-|[]]]; reflexivity.
  - exists cur, [TurnErr (S i) (w_clock w1) id e]. split; [reflexivity|].
    split; [simpl; lia|]. intros t [<-|[]]. reflexivity.
Qed.

Lemma run_round_block exec n i ids : forall cur conv w,
  exists cur' blk, snd (run_round exec n i ids cur conv w) = Ok (cur', conv ++ blk)
    /\ (length ids <= length blk <= 2 * length ids)%nat
    /\ (forall t, In t blk -> turn_iteration t = S i).
Proof.
  induction ids as [|id r IH]; intros cur conv w; simpl.
  - exists cur, []. rewrite app_nil_r. split; [reflexivity|]. split; [simpl; lia|]. intros t [].
  - unfold bind. destruct (agent_turn_block exec n i id cur conv w) as (cur1 & b1 & Ht & Hl & Hi).
    destruct (agent_turn exec n i id cur conv w) as [w1 res]. simpl in Ht. subst res.
    destruct (IH cur1 (conv ++ b1) w1) as (cur' & b2 & Hr & Hl' & Hi').
    exists cur', (b1 ++ b2). rewrite app_assoc. split; [exact Hr|].
    split; [rewrite length_app; lia|].
    intros t Hin. apply in_app_or in Hin. destruct Hin as [Hin|Hin]; [apply Hi|apply Hi']; exact Hin.
Qed.

Lemma run_iterations_blocks exec n ids k : forall i cur conv w,
  exists cur' blocks,
    snd (run_iterations exec n ids i k cur conv w) = Ok (cur', conv ++ concat blocks)
    /\ length blocks = k
    /\ (forall j b, nth_error blocks j = Some b ->
          (length ids <= length b <= 2 * length ids)%nat
          /\ forall t, In t b -> turn_iteration t = S (i + j)).
Proof.
  induction k as [|k IH]; intros i cur conv w; simpl.
  - exists cur, []. rewrite app_nil_r. split; [reflexivity|]. split; [reflexivity|].
    intros [|j] b H; discriminate.
  - unfold bind. destruct (run_round_block exec n i ids cur conv w) as (cur1 & b1 & Hr & Hl & Hi).
    destruct (run_round exec n i ids cur conv w) as [w1 res]. simpl in Hr. subst res.
    destruct (IH (S i) cur1 (conv ++ b1) w1) as (cur' & bs & Hr' & Hn & Hb).
    exists cur', (b1 :: bs). simpl. rewrite app_assoc. split; [exact Hr'|].
    split; [rewrite Hn; reflexivity|].
    intros [|j] b H; simpl in H.
    + injection H as <-. split; [exact Hl|]. intros t Ht. rewrite Nat.add_0_r. exact (Hi t Ht).
    + destruct (Hb j b H) as [Hl' Hi']. split; [exact Hl'|].
      intros t Ht. rewrite Hi' by exact Ht. f_equal. lia.
Qed.

(** X12.  A collaboration over N agent ids and K iterations (any goal that
    converts to a string, any behaviour of [executeAgent]) returns its
    records grouped by iteration: the conversation is K consecutive blocks,
    the [j]-th made of N to 2N records all carrying iteration number
    [j + 1]; so iteration numbers never decrease along the conversation
    and range over 1..K. *)
Theorem collaboration_records_by_iteration :
  forall exec fresh ids goal k w g,
    js_to_string goal = Some g ->
    exists c blocks,
      snd (collaborate_with exec fresh ids goal k w) = Ok c
      /\ c_conversation c = concat blocks
      /\ length blocks = k
      /\ (forall j b, nth_error blocks j = Some b ->
            (length ids <= length b <= 2 * length ids)%nat
            /\ forall t, In t b -> turn_iteration t = S j).
Proof.
  intros exec fresh ids goal k w g Hg. rewrite (collaborate_unfold exec fresh ids goal k w g Hg).
  destruct (run_iterations_blocks exec (length ids) ids k 0 (initial_prompt g) [] w)
    as (cur' & bs & Hr & Hn & Hb).
  destruct (run_iterations _ _ _ _ _ _ _ w) as [w1 res]. simpl in Hr. subst res.
  eexists; exists bs. split; [reflexivity|]. split; [reflexivity|]. split; [exact Hn|]. exact Hb.
Qed.

Lemma collaboration_records_by_iteration_witness :
  js_to_string (JStr "g") = Some "g"
  /\ exists c blocks,
      snd (collaborateAgents net_ok "c1" [JStr "a1"; JStr "a2"; JStr "a3"] (JStr "g") 2 trio) = Ok c
      /\ c_conversation c = concat blocks
      /\ length blocks = 2%nat
      /\ (forall j b, nth_error blocks j = Some b ->
            (3 <= length b <= 2 * 3)%nat /\ forall t, In t b -> turn_iteration t = S j).
Proof.
  split; [reflexivity|].
  exact (collaboration_records_by_iteration (executeAgent net_ok) "c1"
           [JStr "a1"; JStr "a2"; JStr "a3"] (JStr "g") 2 trio "g" eq_refl).
Defined.

(** ** Collaboration timestamps *)

Lemma preserves_response_json P b : preserves P (response_json b).
Proof. destruct b; intros w Hw; exact Hw. Qed.

Lemma preserves_fetch_clock network url h req t0 :
  (forall t url h req, t <= snd (network t url h req)) ->
  preserves (fun w => t0 <= w_clock w) (fetch network url h req).
Proof.
  intros Hn w Hw. unfold fetch. specialize (Hn (w_clock w) url h req).
  destruct (network (w_clock w) url h req) as [o t]. simpl in *. lia.
Qed.

Ltac clock_tac Hn :=
  repeat first
    [ progress (intros)
    | apply preserves_bind
    | apply preserves_catch
    | apply preserves_ret
    | apply preserves_throw
    | apply preserves_lift
    | apply preserves_get_world
    | apply preserves_response_json
    | apply preserves_fetch_clock; exact Hn
    | apply preserves_modify; intros ?w ?Hw; exact Hw
    | match goal with |- preserves _ (match ?x with _ => _ end) => destruct x end
    | match goal with |- preserves _ (if ?x then _ else _) => destruct x end ].

Lemma executeAgent_clock network agentId message context t0 :
  (forall t url h req, t <= snd (network t url h req)) ->
  preserves (fun w => t0 <= w_clock w) (executeAgent network agentId message context).
Proof.
  intros Hn. unfold executeAgent, callAPI, callOpenAI, callAnthropic. clock_tac Hn.
Qed.

Lemma strongly_sorted_snoc (l : list Z) x :
  StronglySorted Z.le l -> Forall (fun y => y <= x) l -> StronglySorted Z.le (l ++ [x]).
Proof.
  induction l as [|a r IH]; simpl; intros Hs Hf.
  - constructor; constructor.
  - inversion Hs as [|a' r' Hs' Ha]; subst. inversion Hf as [|a' r' Hax Hr]; subst.
    constructor; [apply IH; assumption|].
    apply Forall_app. split; [exact Ha|constructor; [exact Hax|constructor]].
Qed.

Lemma times_ok_push s0 w w1 conv ts :
  times_ok s0 w conv -> w_clock w <= w_clock w1 -> turn_time ts = w_clock w1 ->
  times_ok s0 w1 (conv ++ [ts]).
Proof.
  intros (H0 & Hf & Hs) Hw Ht. split; [lia|]. rewrite map_app. simpl. rewrite Ht. split.
  - apply Forall_app. split; [|constructor; [lia|constructor]].
    eapply Forall_impl; [|exact Hf]. simpl. intros x Hx. lia.
  - apply strongly_sorted_snoc; [exact Hs|].
    eapply Forall_impl; [|exact Hf]. simpl. intros x Hx. lia.
Qed.

Section Timestamps.

Variable exec : json -> json -> json -> M exec_result.
Hypothesis exec_clock : forall t0 a b c, preserves (fun w => t0 <= w_clock w) (exec a b c).

Lemma agent_turn_times s0 n i id cur conv w :
  times_ok s0 w conv ->
  exists cur' conv', agent_turn exec n i id cur conv w
                     = (fst (agent_turn exec n i id cur conv w), Ok (cur', conv'))
                   /\ times_ok s0 (fst (agent_turn exec n i id cur conv w)) conv'.
Proof.
  intros Ht. pose proof (exec_clock (w_clock w) id (JStr cur) (JObj []) w (Z.le_refl _)) as Hc.
  unfold agent_turn.
  destruct (exec id (JStr cur) (JObj []) w) as [w1 [r|e]]; simpl in Hc.
  - destruct (digest n (conv ++ [TurnOk (S i) (w_clock w1) r])) as [d|].
    + eexists _, _. split; [reflexivity|]. apply (times_ok_push s0 w); auto.
    + eexists _, _. split; [reflexivity|]. simpl.
      apply (times_ok_push s0 w1); [apply (times_ok_push s0 w); auto|lia|reflexivity].
  - eexists _, _. split; [reflexivity|]. apply (times_ok_push s0 w); auto.
Qed.

Lemma run_round_times s0 n i ids : forall cur conv w,
  times_ok s0 w conv ->
  exists cur' conv', run_round exec n i ids cur conv w
                     = (fst (run_round exec n i ids cur conv w), Ok (cur', conv'))
                   /\ times_ok s0 (fst (run_round exec n i ids cur conv w)) conv'.
Proof.
  induction ids as [|id r IH]; intros cur conv w Ht; simpl.
  - eexists _, _. split; [reflexivity|exact Ht].
  - unfold bind. destruct (agent_turn_times s0 n i id cur conv w Ht) as (c1 & v1 & Ha & Ht1).
    rewrite Ha. simpl. apply IH. exact Ht1.
Qed.

Lemma run_iterations_times s0 n ids k : forall i cur conv w,
  times_ok s0 w conv ->
  exists cur' conv', run_iterations exec n ids i k cur conv w
                     = (fst (run_iterations exec n ids i k cur conv w), Ok (cur', conv'))
                   /\ times_ok s0 (fst (run_iterations exec n ids i k cur conv w)) conv'.
Proof.
  induction k as [|k IH]; intros i cur conv w Ht; simpl.
  - eexists _, _. split; [reflexivity|exact Ht].
  - unfold bind. destruct (run_round_times s0 n i ids cur conv w Ht) as (c1 & v1 & Ha & Ht1).
    rewrite Ha. simpl. apply IH. exact Ht1.
Qed.

Lemma collaborate_times fresh ids goal k w g :
  js_to_string goal = Some g ->
  exists c fin,
    snd (collaborate_with exec fresh ids goal k w) = Ok c
    /\ c_completed c = Some fin
    /\ c_started c <= fin
    /\ StronglySorted Z.le (map turn_time (c_conversation c))
    /\ (forall t, In t (c_conversation c) -> c_started c <= turn_time t <= fin).
Proof.
  intros Hg. rewrite (collaborate_unfold exec fresh ids goal k w g Hg).
  assert (H0 : times_ok (w_clock w) w []) by (split; [lia|split; constructor]).
  destruct (run_iterations_times (w_clock w) (length ids) ids k 0 (initial_prompt g) [] w H0)
    as (cur' & conv' & Hr & (Hs & Hf & Hso)).
  rewrite Hr. simpl. exists {| c_id := fresh; c_goal := goal; c_agents := ids;
      c_conversation := conv'; c_started := w_clock w;
      c_completed := Some (w_clock (fst (run_iterations exec (length ids) ids 0 k
                                          (initial_prompt g) [] w))) |}.
  eexists. split; [reflexivity|]. split; [reflexivity|]. simpl. split; [exact Hs|].
  split; [exact Hso|].
  intros t Hin. rewrite Forall_forall in Hf. apply Hf. apply in_map. exact Hin.
Qed.

End Timestamps.

(** X13.  When the clock never runs backwards across a [fetch], the records
    of a collaboration are in nondecreasing timestamp order and every
    timestamp lies between the run's [started] and [completed] times. *)
Theorem collaboration_timestamps_ordered :
  forall network fresh ids goal k w g,
    (forall t url h req, t <= snd (network t url h req)) ->
    js_to_string goal = Some g ->
    exists c fin,
      snd (collaborateAgents network fresh ids goal k w) = Ok c
      /\ c_completed c = Some fin
      /\ c_started c <= fin
      /\ StronglySorted Z.le (map turn_time (c_conversation c))
      /\ (forall t, In t (c_conversation c) -> c_started c <= turn_time t <= fin).
Proof.
  intros network fresh ids goal k w g Hn Hg. unfold collaborateAgents.
  refine (collaborate_times (executeAgent network) _ fresh ids goal k w g Hg).
  intros t0 a b c. apply executeAgent_clock. exact Hn.
Qed.

Lemma collaboration_timestamps_ordered_witness :
  (forall t url h req, t <= snd (net_ok t url h req))
  /\ js_to_string (JStr "g") = Some "g"
  /\ exists c fin,
      snd (collaborateAgents net_ok "c1" [JStr "a1"; JStr "a2"; JStr "a3"] (JStr "g") 2 trio) = Ok c
      /\ c_completed c = Some fin
      /\ c_started c <= fin
      /\ StronglySorted Z.le (map turn_time (c_conversation c))
      /\ (forall t, In t (c_conversation c) -> c_started c <= turn_time t <= fin).
Proof.
  assert (Hn : forall t url h req, t <= snd (net_ok t url h req)).
  { intros t url h req. unfold net_ok. destruct (String.eqb _ _); simpl; lia. }
  split; [exact Hn|]. split; [reflexivity|].
  exact (collaboration_timestamps_ordered net_ok "c1" [JStr "a1"; JStr "a2"; JStr "a3"]
           (JStr "g") 2 trio "g" Hn eq_refl).
Defined.
